(** * xin: X11 forwarded input receiver

    A shallow embedding of [xin.c] and the properties of its line
    protocol, its two key injection back ends, its pointer bookkeeping
    and its keyboard layout switch.

    The C library and Xlib are not part of the program: they are modelled
    by what their manuals say ([fgets], [strcspn], [sscanf], [isalpha],
    [snprintf]) or, for the display server, by a record of the answers
    the server gives.  Every call with an effect outside the process is
    recorded, in order, in a trace. *)

From Stdlib Require Import ZArith List Ascii String Bool Lia.
From Equations Require Import Equations.
Import ListNotations.
Local Open Scope Z_scope.

(** ** C integers *)

Module C.

Definition INT_MIN : Z := - 2 ^ 31.
Definition INT_MAX : Z := 2 ^ 31 - 1.
Definition LONG_MIN : Z := - 2 ^ 63.
Definition LONG_MAX : Z := 2 ^ 63 - 1.

(** Conversion to [unsigned int]. *)
Definition to_uint (z : Z) : Z := z mod 2 ^ 32.

(** Conversion to [int]: two's complement wrap-around. *)
Definition to_int (z : Z) : Z := (z + 2 ^ 31) mod 2 ^ 32 - 2 ^ 31.

(** [a -= b] on [int]s. *)
Definition sub (a b : Z) : Z := to_int (a - b).

(** [m |= u] for [int m] and [unsigned int u]: the operation is done
    on [unsigned int] and the result converted back. *)
Definition or_assign (m u : Z) : Z := to_int (Z.lor (to_uint m) u).

(** [m &= ~u] for [int m] and [unsigned int u]. *)
Definition and_not_assign (m u : Z) : Z :=
  to_int (Z.land (to_uint m) (to_uint (Z.lnot u))).

(** What [strtol] makes of a decimal numeral of value [z], and what is
    left of it once it is stored through an [int *] (LP64). *)
Definition strtol (z : Z) : Z := Z.max LONG_MIN (Z.min LONG_MAX z).
Definition store_int (z : Z) : Z := to_int (strtol z).

Definition in_int (z : Z) : Prop := INT_MIN <= z <= INT_MAX.

End C.

(** ** Characters and C strings *)

Definition NUL : ascii := Ascii.zero.
Definition LF : ascii := "010"%char.
Definition CR : ascii := "013"%char.

Definition code (c : ascii) : Z := Z.of_N (N_of_ascii c).

(** [<ctype.h>] in the "C" locale (the program never calls [setlocale]). *)
Definition isspace (c : ascii) : bool :=
  (code c =? 32) || ((9 <=? code c) && (code c <=? 13)).
Definition isdigit (c : ascii) : bool :=
  (48 <=? code c) && (code c <=? 57).
Definition isalpha (c : ascii) : bool :=
  ((65 <=? code c) && (code c <=? 90)) || ((97 <=? code c) && (code c <=? 122)).

(** A [char *] is a list of characters read up to its first NUL, or up to
    its end, where the terminating NUL is. *)
Fixpoint strcspn (s reject : list ascii) : nat :=
  match s with
  | [] => O
  | c :: s' =>
      if Ascii.eqb c NUL || existsb (Ascii.eqb c) reject then O
      else S (strcspn s' reject)
  end.

Definition strlen (s : list ascii) : nat := strcspn s [].

(** [s[i]], the terminating NUL included. *)
Definition char_at (s : list ascii) (i : nat) : ascii := nth i s NUL.

(** ** [sscanf] for the conversions the program uses *)

Inductive directive : Type :=
| Dchar                (* %c *)
| Dint                 (* %d *)
| Dspace               (* white space in the format *)
| Dlit (c : ascii).    (* any other character *)

Fixpoint directives (fmt : list ascii) : list directive :=
  match fmt with
  | [] => []
  | "%"%char :: "c"%char :: fmt' => Dchar :: directives fmt'
  | "%"%char :: "d"%char :: fmt' => Dint :: directives fmt'
  | c :: fmt' => (if isspace c then Dspace else Dlit c) :: directives fmt'
  end.

Inductive scanned : Type :=
| Schar (c : ascii)
| Sint (v : Z).

Inductive stop : Type := Complete | InputFailure | MatchingFailure.

Fixpoint skip_space (s : list ascii) : list ascii :=
  match s with
  | c :: s' => if isspace c then skip_space s' else s
  | [] => []
  end.

Fixpoint scan_digits (acc : Z) (s : list ascii) : Z * list ascii :=
  match s with
  | c :: s' =>
      if isdigit c then scan_digits (10 * acc + (code c - 48)) s' else (acc, s)
  | [] => (acc, [])
  end.

(** An optionally signed decimal numeral at the head of [s]. *)
Definition scan_int (s : list ascii) : option (Z * list ascii) :=
  let '(neg, s1) :=
    match s with
    | "-"%char :: t => (true, t)
    | "+"%char :: t => (false, t)
    | _ => (false, s)
    end in
  match s1 with
  | c :: _ =>
      if isdigit c then
        let '(v, rest) := scan_digits 0 s1 in
        Some (C.store_int (if neg then - v else v), rest)
      else None
  | [] => None
  end.

(** The assignments made, in order, and why scanning stopped. *)
Fixpoint scan (fmt : list directive) (s : list ascii) : list scanned * stop :=
  match fmt with
  | [] => ([], Complete)
  | Dspace :: fmt' => scan fmt' (skip_space s)
  | Dlit c :: fmt' =>
      match s with
      | [] => ([], InputFailure)
      | c' :: s' => if Ascii.eqb c c' then scan fmt' s' else ([], MatchingFailure)
      end
  | Dchar :: fmt' =>
      match s with
      | [] => ([], InputFailure)
      | c :: s' => let '(r, e) := scan fmt' s' in (Schar c :: r, e)
      end
  | Dint :: fmt' =>
      match skip_space s with
      | [] => ([], InputFailure)
      | s1 =>
          match scan_int s1 with
          | None => ([], MatchingFailure)
          | Some (v, s2) => let '(r, e) := scan fmt' s2 in (Sint v :: r, e)
          end
      end
  end.

Definition EOF : Z := -1.

(** The return value of [sscanf(s, fmt, ...)] and the values it stored. *)
Definition sscanf (s : list ascii) (fmt : string) : Z * list scanned :=
  let '(r, e) := scan (directives (list_ascii_of_string fmt)) s in
  (match r, e with
   | [], InputFailure => EOF
   | _, _ => Z.of_nat (List.length r)
   end, r).

(** [sscanf(buf, "%c %d", &c, &v1) == 2], with the values stored. *)
Definition sscanf_c_d (buf : list ascii) : option (ascii * Z) :=
  match sscanf buf "%c %d" with
  | (2, [Schar c; Sint v1]) => Some (c, v1)
  | _ => None
  end.

(** [sscanf(buf, "%c %d %d", &c, &v1, &v2) == 3], with the values stored. *)
Definition sscanf_c_d_d (buf : list ascii) : option (ascii * Z * Z) :=
  match sscanf buf "%c %d %d" with
  | (3, [Schar c; Sint v1; Sint v2]) => Some (c, v1, v2)
  | _ => None
  end.

(** ** [fgets] on standard input *)

Inductive got : Type :=
| Line (buf rest : list ascii)   (* newline stored, or the buffer is full *)
| Short (buf : list ascii).      (* the stream ran dry first *)

Fixpoint fgets_read (room : nat) (input : list ascii) : got :=
  match room with
  | O => Line [] input
  | S room' =>
      match input with
      | [] => Short []
      | c :: input' =>
          if Ascii.eqb c LF then Line [c] input'
          else match fgets_read room' input' with
               | Line b r => Line (c :: b) r
               | Short b => Short (c :: b)
               end
      end
  end.

(** [fgets(buf, size, stdin)]: [input] is what is left on the stream and
    [ferror] tells whether the read after its last byte fails rather
    than reporting end of file.  [None] is a NULL return. *)
Definition fgets (size : nat) (input : list ascii) (ferror : bool)
  : option (list ascii * list ascii) :=
  match fgets_read (size - 1) input with
  | Line b r => Some (b, r)
  | Short b =>
      if ferror then None
      else match b with [] => None | _ => Some (b, []) end
  end.

(** ** The display server, as the program sees it *)

Definition Window : Type := Z.

Module X.
Definition None : Z := 0.
Definition False : Z := 0.
Definition True : Z := 1.
Definition KeyPress : Z := 2.
Definition KeyRelease : Z := 3.
Definition LeaveNotify : Z := 8.
Definition MappingNotify : Z := 34.
Definition MappingKeyboard : Z := 1.
Definition KeyPressMask : Z := 1.
Definition KeyReleaseMask : Z := 2.
Definition CurrentTime : Z := 0.
End X.

(** The client's keysym tables. *)
Record keymap : Type := {
  keycode_of : Z -> Z;       (* XKeysymToKeycode; 0 when there is none *)
  modifiers_of : Z -> Z;     (* XkbKeysymToModifiers *)
}.

(** An event on the connection's queue: its type, and what the program
    reads from it as [xmapping.request]. *)
Record XEvent : Type := {
  ev_type : Z;
  ev_request : Z;
}.

(** The event the direct-delivery path builds; the fields it leaves
    alone are zero. *)
Record XKeyEvent : Type := {
  xkey_type : Z;
  xkey_window : Window;
  xkey_subwindow : Window;
  xkey_time : Z;
  xkey_state : Z;
  xkey_keycode : Z;
}.

Record Display : Type := {
  mapping : keymap;               (* tables Xlib holds for the client *)
  server_mapping : keymap;        (* tables a refresh would fetch *)
  width : Z;                      (* DisplayWidth(dpy, DefaultScreen(dpy)) *)
  height : Z;                     (* DisplayHeight(dpy, DefaultScreen(dpy)) *)
  root : Window;                  (* RootWindow(dpy, 0) *)
  super_l : Z;                    (* XStringToKeysym("Super_L") *)
  focus_status : Z;               (* what XGetInputFocus returns *)
  focus : Window;                 (* and the window it stores *)
  pointer_root : Window;          (* what XQueryPointer stores *)
  pointer_x : Z;
  pointer_y : Z;
  queue : list XEvent;            (* events to come, oldest first *)
  system_status : Z;              (* what system() returns *)
  system_mapping : list ascii -> keymap;  (* tables after the command ran *)
  system_events : list XEvent;    (* events the command makes the server send *)
}.

(** The fields of the static [XButtonEvent xb] of [xmotion] that are read. *)
Record XButtonEvent : Type := {
  xb_root : Window;
  x_root : Z;
  y_root : Z;
}.

(** Everything that outlives a call: the connection, [static int
    modifiers] of [xkey_sendevent] and [static XButtonEvent xb] of
    [xmotion]. *)
Record world : Type := {
  dpy : Display;
  modifiers : Z;
  xb : XButtonEvent;
}.

Definition set_dpy (d : Display) (w : world) : world :=
  {| dpy := d; modifiers := modifiers w; xb := xb w |}.
Definition set_modifiers (m : Z) (w : world) : world :=
  {| dpy := dpy w; modifiers := m; xb := xb w |}.
Definition set_xb (b : XButtonEvent) (w : world) : world :=
  {| dpy := dpy w; modifiers := modifiers w; xb := b |}.

Definition set_mapping (k : keymap) (d : Display) : Display :=
  {| mapping := k; server_mapping := server_mapping d;
     width := width d; height := height d; root := root d;
     super_l := super_l d;
     focus_status := focus_status d; focus := focus d;
     pointer_root := pointer_root d; pointer_x := pointer_x d;
     pointer_y := pointer_y d; queue := queue d;
     system_status := system_status d; system_mapping := system_mapping d;
     system_events := system_events d |}.

Definition set_server_mapping (k : keymap) (d : Display) : Display :=
  {| mapping := mapping d; server_mapping := k;
     width := width d; height := height d; root := root d;
     super_l := super_l d;
     focus_status := focus_status d; focus := focus d;
     pointer_root := pointer_root d; pointer_x := pointer_x d;
     pointer_y := pointer_y d; queue := queue d;
     system_status := system_status d; system_mapping := system_mapping d;
     system_events := system_events d |}.

Definition set_queue (q : list XEvent) (d : Display) : Display :=
  {| mapping := mapping d; server_mapping := server_mapping d;
     width := width d; height := height d; root := root d;
     super_l := super_l d;
     focus_status := focus_status d; focus := focus d;
     pointer_root := pointer_root d; pointer_x := pointer_x d;
     pointer_y := pointer_y d; queue := q;
     system_status := system_status d; system_mapping := system_mapping d;
     system_events := system_events d |}.

(** ** Effects *)

(** Calls that reach outside the process, as the trace records them. *)
Inductive call : Type :=
| Warnx (msg : string)
| Err (eval : Z) (msg : string)
| GetInputFocus
| QueryPointer
| FakeKeyEvent (keycode : Z) (is_press : bool) (delay : Z)
| FakeButtonEvent (button : Z) (is_press : bool) (delay : Z)
| FakeMotionEvent (screen x y delay : Z)
| SendEvent (w : Window) (propagate mask : Z) (e : XKeyEvent)
| Flush
| GrabKey (keycode modifiers : Z) (grab_window : Window)
| Sync
| TakeEvent (e : XEvent)
| RefreshKeyboardMapping
| System (command : list ascii).

(** How a computation ends: with a value, by [exit], or never. *)
Inductive outcome (A : Type) : Type :=
| Done (a : A) (w : world)
| Exit (status : Z)
| Blocked.
Arguments Done {A} a w.
Arguments Exit {A} status.
Arguments Blocked {A}.

Definition M (A : Type) : Type := world -> list call * outcome A.

Definition ret {A} (a : A) : M A := fun w => ([], Done a w).

Definition bind {A B} (m : M A) (k : A -> M B) : M B := fun w =>
  match m w with
  | (t, Done a w') => let '(t', o) := k a w' in (t ++ t', o)
  | (t, Exit n) => (t, Exit n)
  | (t, Blocked) => (t, Blocked)
  end.

Declare Scope xin_scope.
Delimit Scope xin_scope with xin.
Notation "x <- m ;; k" := (bind m (fun x => k))
  (at level 61, m at next level, right associativity) : xin_scope.
Notation "m ;; k" := (bind m (fun _ => k))
  (at level 61, right associativity) : xin_scope.
Local Open Scope xin_scope.

Definition emit (c : call) : M unit := fun w => ([c], Done tt w).
Definition get : M world := fun w => ([], Done w w).
Definition put (w : world) : M unit := fun _ => ([], Done tt w).
Definition hang {A} : M A := fun _ => ([], Blocked).

Definition warnx (msg : string) : M unit := emit (Warnx msg).
Definition err {A} (eval : Z) (msg : string) : M A :=
  fun _ => ([Err eval msg], Exit eval).

(** *** Xlib, XTest and XKB *)

Definition XKeysymToKeycode (keysym : Z) : M Z :=
  w <- get ;; ret (keycode_of (mapping (dpy w)) keysym).
Definition XkbKeysymToModifiers (keysym : Z) : M Z :=
  w <- get ;; ret (C.to_uint (modifiers_of (mapping (dpy w)) keysym)).
Definition XStringToKeysym (name : string) : M Z :=
  w <- get ;; ret (super_l (dpy w)).
Definition RootWindow : M Window := w <- get ;; ret (root (dpy w)).
Definition DisplayWidth : M Z := w <- get ;; ret (width (dpy w)).
Definition DisplayHeight : M Z := w <- get ;; ret (height (dpy w)).

Definition XGetInputFocus : M (Z * Window) :=
  emit GetInputFocus ;;
  w <- get ;; ret (focus_status (dpy w), focus (dpy w)).

Definition XQueryPointer : M XButtonEvent :=
  emit QueryPointer ;;
  w <- get ;;
  ret {| xb_root := pointer_root (dpy w);
         x_root := C.to_int (pointer_x (dpy w));
         y_root := C.to_int (pointer_y (dpy w)) |}.

Definition XTestFakeKeyEvent (keycode : Z) (is_press : bool) (delay : Z) : M unit :=
  emit (FakeKeyEvent (C.to_uint keycode) is_press delay).
Definition XTestFakeButtonEvent (button : Z) (is_press : bool) (delay : Z) : M unit :=
  emit (FakeButtonEvent (C.to_uint button) is_press delay).
Definition XTestFakeMotionEvent (screen x y delay : Z) : M unit :=
  emit (FakeMotionEvent screen x y delay).
Definition XSendEvent (w : Window) (propagate mask : Z) (e : XKeyEvent) : M unit :=
  emit (SendEvent w propagate mask e).
Definition XFlush : M unit := emit Flush.
Definition XSync : M unit := emit Sync.
Definition XGrabKey (keycode mods : Z) (grab_window : Window) : M unit :=
  emit (GrabKey keycode mods grab_window).

Definition XRefreshKeyboardMapping : M unit :=
  emit RefreshKeyboardMapping ;;
  w <- get ;; put (set_dpy (set_mapping (server_mapping (dpy w)) (dpy w)) w).

(** The event mask an event type is selected by (Xlib's table, for the
    types a mask of 34 can select; the others are selected by no bit
    of it). *)
Definition event_mask (type : Z) : Z :=
  if type =? X.KeyRelease then X.KeyReleaseMask
  else if type =? X.LeaveNotify then 32
  else 0.

(** [XCheckMaskEvent(dpy, mask, &e)] takes the oldest queued event the
    mask selects off the queue, and returns False when there is none. *)
Definition selects (mask : Z) (e : XEvent) : bool :=
  negb (Z.land mask (event_mask (ev_type e)) =? 0).

Fixpoint for_each {A} (l : list A) (body : A -> M unit) : M unit :=
  match l with
  | [] => ret tt
  | a :: l' => body a ;; for_each l' body
  end.

(** [while (XCheckMaskEvent(dpy, mask, &e) == True) body(&e);] for a
    body that leaves the queue alone: the selected events are taken,
    oldest first, and the others stay. *)
Definition while_XCheckMaskEvent (mask : Z) (body : XEvent -> M unit) : M unit :=
  w <- get ;;
  let q := queue (dpy w) in
  put (set_dpy (set_queue (filter (fun e => negb (selects mask e)) q) (dpy w)) w) ;;
  for_each (filter (selects mask) q) (fun e => emit (TakeEvent e) ;; body e).

(** [XNextEvent(dpy, &e)]: the oldest queued event; waits for ever when
    none comes. *)
Definition XNextEvent : M XEvent :=
  w <- get ;;
  match queue (dpy w) with
  | e :: q => emit (TakeEvent e) ;; put (set_dpy (set_queue q (dpy w)) w) ;; ret e
  | [] => hang
  end.

(** [system(s)]: the command runs to its end before the call returns. *)
Definition system (s : list ascii) : M Z :=
  emit (System s) ;;
  w <- get ;;
  let d := dpy w in
  put (set_dpy (set_queue (queue d ++ system_events d)
                  (set_server_mapping (system_mapping d s) d)) w) ;;
  ret (system_status d).

(** ** The program *)

Inductive inject_method : Type :=
| INJECT_METHOD_XTEST
| INJECT_METHOD_SENDEVENT.

Definition EXIT_SUCCESS : Z := 0.

Definition xkey (type : ascii) (state keycode : Z) : M unit :=
  let is_press := Ascii.eqb type "k" in
  keycode <- (if keycode =? 0 then XKeysymToKeycode state else ret keycode) ;;
  if keycode =? 0 then
    warnx "couldn't find keycode for a keysym"
  else
    XTestFakeKeyEvent keycode is_press 0 ;;
    XFlush.

Definition xkey_sendevent (type : ascii) (state keycode : Z) : M unit :=
  r <- XGetInputFocus ;;
  focus <- (if fst r =? X.False then
              warnx "no input focus; sending events to root window" ;;
              RootWindow
            else ret (snd r)) ;;
  let is_press := Ascii.eqb type "k" in
  kc <- XKeysymToKeycode state ;;
  m <- XkbKeysymToModifiers state ;;
  w <- get ;;
  let mods := if is_press then C.or_assign (modifiers w) m
              else C.and_not_assign (modifiers w) m in
  put (set_modifiers mods w) ;;
  XSendEvent focus X.False
    (if is_press then X.KeyPressMask else X.KeyReleaseMask)
    {| xkey_type := if is_press then X.KeyPress else X.KeyRelease;
       xkey_window := focus;
       xkey_subwindow := focus;
       xkey_time := X.CurrentTime;
       xkey_state := C.to_uint mods;
       xkey_keycode := C.to_uint kc |} ;;
  XFlush.

Definition xbutton (type : ascii) (state button : Z) : M unit :=
  let is_press := Ascii.eqb type "b" in
  XTestFakeButtonEvent button is_press 0 ;;
  XFlush.

Definition xmotion (x y : Z) : M unit :=
  w <- get ;;
  (if xb_root (xb w) =? X.None then
     b <- XQueryPointer ;; w <- get ;; put (set_xb b w)
   else ret tt) ;;
  maxw <- DisplayWidth ;;
  maxh <- DisplayHeight ;;
  w <- get ;;
  let xr := C.sub (x_root (xb w)) x in
  let yr := C.sub (y_root (xb w)) y in
  let xr := if xr <? 0 then 0 else xr in
  let yr := if yr <? 0 then 0 else yr in
  let xr := if xr >=? maxw then maxw else xr in
  let yr := if yr >=? maxh then maxh else yr in
  put (set_xb {| xb_root := xb_root (xb w); x_root := xr; y_root := yr |} w) ;;
  XTestFakeMotionEvent 0 xr yr 0 ;;
  XFlush.

Definition update_mapping (e : XEvent) : M unit :=
  if ev_request e =? X.MappingKeyboard then XRefreshKeyboardMapping
  else ret tt.

(** [for (p = layout; *p != '\0'; p++) if (isalpha( *p) == 0) ...]:
    [false] when the loop meets a character that is not a letter. *)
Fixpoint all_alpha (p : list ascii) : bool :=
  match p with
  | [] => true
  | c :: p' =>
      if Ascii.eqb c NUL then true
      else if isalpha c then all_alpha p' else false
  end.

(** The string [layout] points to. *)
Definition cstring (layout : list ascii) : list ascii :=
  firstn (strlen layout) layout.

Definition setxkbmap : list ascii := list_ascii_of_string "setxkbmap ".

(** What [snprintf(s, sizeof(s), "setxkbmap %s", layout)] returns. *)
Definition snprintf_setxkbmap (layout : list ascii) : Z :=
  Z.of_nat (List.length setxkbmap + strlen layout).

(** [do { XNextEvent(dpy, &e); ... } while (e.type != MappingNotify);],
    by recursion on the events that come. *)
Fixpoint wait_mapping (q : list XEvent) : M unit :=
  match q with
  | [] => hang
  | _ :: q' =>
      e <- XNextEvent ;;
      if ev_type e =? X.MappingNotify then update_mapping e
      else wait_mapping q'
  end.

Definition xkblayout (layout : list ascii) : M unit :=
  if negb (all_alpha layout) then
    warnx "layout name cannot contain special characters"
  else if snprintf_setxkbmap layout >=? 128 then
    warnx "layout name too long"
  else
    let s := (setxkbmap ++ cstring layout)%list in
    keysym <- XStringToKeysym "Super_L" ;;
    keycode <- XKeysymToKeycode keysym ;;
    grab_window <- RootWindow ;;
    XGrabKey keycode 0 grab_window ;;
    XSync ;;
    while_XCheckMaskEvent X.MappingNotify update_mapping ;;
    status <- system s ;;
    (if status =? -1 then err 1 "system" else ret tt) ;;
    w <- get ;;
    wait_mapping (queue (dpy w)) ;;
    while_XCheckMaskEvent X.MappingNotify update_mapping.

Definition is_key (c : ascii) : bool := Ascii.eqb c "k" || Ascii.eqb c "K".

(** The places of [main] a line can be handed to, each with the values
    it is handed with. *)
Inductive branch : Type :=
| Layout (layout : list ascii)       (* line 235: xkblayout(dpy, layout) *)
| Key2 (c : ascii) (v1 : Z)          (* lines 238-241: keycode 0 *)
| Invalid                            (* line 243 *)
| Motion (v1 v2 : Z)                 (* line 247 *)
| Button (c : ascii) (v1 v2 : Z)     (* line 251 *)
| Key3 (c : ascii) (v1 v2 : Z)       (* line 255: xkey(dpy, c, v1, v2) *)
| Unknown.                           (* line 258 *)

(** Lines 242 to 260: the conditions of the three-field forms. *)
Definition three_fields (buf : list ascii) : branch :=
  match sscanf_c_d_d buf with
  | None => Invalid
  | Some (c, v1, v2) =>
      if Ascii.eqb c "m" then Motion v1 v2
      else if Ascii.eqb c "b" || Ascii.eqb c "B" then Button c v1 v2
      else if Ascii.eqb c "k" || Ascii.eqb c "K" then Key3 c v1 v2
      else Unknown
  end.

(** Lines 233 to 260: the conditions, in the order [main] tries them, for
    the line [buf] cut at [n]. *)
Definition classify (buf : list ascii) (n : nat) : branch :=
  if Ascii.eqb (char_at buf 0) "l" && (2 <? Z.of_nat n) then
    Layout (skipn 2 buf)
  else
    match sscanf_c_d buf with
    | Some (c, v1) => if is_key c then Key2 c v1 else three_fields buf
    | None => three_fields buf
    end.

(** What each place does. *)
Definition run (method : inject_method) (b : branch) : M unit :=
  match b with
  | Layout layout => xkblayout layout
  | Key2 c v1 =>
      match method with
      | INJECT_METHOD_SENDEVENT => xkey_sendevent c v1 0
      | INJECT_METHOD_XTEST => xkey c v1 0
      end
  | Invalid => warnx "parse error; invalid or incomplete format"
  | Motion v1 v2 => xmotion v1 v2
  | Button c v1 v2 => xbutton c v1 v2
  | Key3 c v1 v2 => xkey c v1 v2
  | Unknown => warnx "parse error; unknown control"
  end.

Definition dispatch (method : inject_method) (buf : list ascii) (n : nat) : M unit :=
  run method (classify buf n).

(** The body of the [while] loop, for what [fgets] stored in [buf];
    the value is [skip_truncated] at the end of the iteration. *)
Definition iteration (method : inject_method) (buf : list ascii)
    (skip_truncated : bool) : M bool :=
  let n := strcspn buf [CR; LF] in
  if Ascii.eqb (char_at buf n) NUL then
    (if negb skip_truncated then warnx "parse error; truncated input"
     else ret tt) ;;
    ret true
  else if skip_truncated then
    ret false
  else
    dispatch method (firstn n buf) n ;;
    ret false.

Definition inspect {A} (a : A) : {b : A | a = b} := exist _ a eq_refl.

(** [while (fgets(buf, sizeof(buf), stdin) != NULL) { ... }], on what is
    left of standard input. *)
Equations? main_loop (method : inject_method) (ferror : bool)
    (input : list ascii) (skip_truncated : bool) (w : world)
  : list call * outcome unit by wf (List.length input) lt :=
  main_loop method ferror input skip_truncated w
    with inspect (fgets 64 input ferror) := {
    | exist _ None _ => ([], Done tt w)
    | exist _ (Some (buf, rest)) H
        with iteration method buf skip_truncated w := {
        | (t, Done skip w') =>
            let '(t', o) := main_loop method ferror rest skip w' in
            ((t ++ t')%list, o)
        | (t, Exit n) => (t, Exit n)
        | (t, Blocked) => (t, Blocked) } }.
Proof.
  clear - H. unfold fgets in H.
  assert (G : forall room i b r,
             fgets_read (S room) i = Line b r ->
             (List.length r < List.length i)%nat).
  { induction room as [|room IH]; intros i b r E.
    - destruct i as [|c i]; simpl in E; [discriminate|].
      destruct (Ascii.eqb c LF); inversion E; simpl; lia.
    - destruct i as [|c i]; [discriminate|].
      change (fgets_read (S (S room)) (c :: i))
        with (if Ascii.eqb c LF then Line [c] i
              else match fgets_read (S room) i with
                   | Line b r => Line (c :: b) r
                   | Short b => Short (c :: b)
                   end) in E.
      destruct (Ascii.eqb c LF); [inversion E; simpl; lia|].
      destruct (fgets_read (S room) i) eqn:E'; inversion E; subst.
      apply IH in E'. simpl; lia. }
  change (64 - 1)%nat with (S 62) in H.
  destruct (fgets_read (S 62) input) as [b r|b] eqn:E.
  - inversion H; subst. eapply G; eauto.
  - destruct ferror; [discriminate|].
    destruct b; [discriminate|]. inversion H; subst.
    destruct input; [discriminate | simpl; lia].
Qed.

(** [main], from the loop on, for the injection method chosen at start. *)
Definition main (method : inject_method) (stdin : list ascii) (ferror : bool)
    (errno : Z) : M Z :=
  let feof := negb ferror in
  (fun w => main_loop method ferror stdin false w) ;;
  if ferror then err 1 "reading stdin"
  else if negb feof && negb (errno =? 0) then err 1 "fgets"
  else ret EXIT_SUCCESS.

(** ** Vocabulary of the properties *)

Definition chars (s : string) : list ascii := list_ascii_of_string s.

(** A character that neither ends a line nor ends a C string. *)
Definition plain (c : ascii) : bool :=
  negb (Ascii.eqb c NUL || Ascii.eqb c CR || Ascii.eqb c LF).

(** The content of a line that fits the buffer with its newline. *)
Definition fits (line : list ascii) : Prop :=
  forallb plain line = true /\ (List.length line <= 62)%nat.


(** The test of line 223, [buf[n] == '\0']: no CR or LF before the NUL
    of what [fgets] stored. *)
Definition unterminated (buf : list ascii) : bool :=
  Ascii.eqb (char_at buf (strcspn buf [CR; LF])) NUL.

(** Successive calls of [fgets] on [input] store the buffers [bufs], in
    order, and leave [rest] on the stream. *)
Fixpoint reads (ferror : bool) (bufs : list (list ascii))
    (input rest : list ascii) : Prop :=
  match bufs with
  | [] => input = rest
  | b :: bs =>
      exists mid, fgets 64 input ferror = Some (b, mid)
                  /\ reads ferror bs mid rest
  end.

(** The diagnostic of the places that reject a line. *)
Definition diagnostic (b : branch) : option string :=
  match b with
  | Invalid => Some "parse error; invalid or incomplete format"%string
  | Unknown => Some "parse error; unknown control"%string
  | _ => None
  end.

(** The clamp of the specification: below 0 gives 0, at or above the
    bound gives the bound. *)
Definition clamp (v bound : Z) : Z :=
  if v <? 0 then 0 else if v >=? bound then bound else v.

(** Lines 128 to 135 of [xmotion], for one coordinate. *)
Definition bounded (v bound : Z) : Z :=
  let v := if v <? 0 then 0 else v in
  if v >=? bound then bound else v.

(** The pointer position a motion command starts from: the stored one,
    or the one the server reports when none is stored yet. *)
Definition position (w : world) : Z * Z :=
  if xb_root (xb w) =? X.None then
    (C.to_int (pointer_x (dpy w)), C.to_int (pointer_y (dpy w)))
  else (x_root (xb w), y_root (xb w)).

(** What seeding the position leaves in the trace. *)
Definition seeding (w : world) : list call :=
  if xb_root (xb w) =? X.None then [QueryPointer] else [].

(** The invariant of the pointer record. *)
Definition pointer_ok (w : world) : Prop :=
  0 <= x_root (xb w) <= width (dpy w) /\ 0 <= y_root (xb w) <= height (dpy w).

(** Between two worlds the pointer record and the screen are the same. *)
Definition same_pointer (w w' : world) : Prop :=
  xb w' = xb w /\
  width (dpy w') = width (dpy w) /\ height (dpy w') = height (dpy w).

(** A computation that leaves the pointer record and the screen alone. *)
Definition keeps {A} (m : M A) : Prop :=
  forall w t a w', m w = (t, Done a w') -> same_pointer w w'.

(** The modifier bits of a keysym, as the direct-delivery path reads them. *)
Definition modifier_bits (w : world) (keysym : Z) : Z :=
  C.to_uint (modifiers_of (mapping (dpy w)) keysym).

(** The window the direct-delivery path sends to, and what finding it
    leaves in the trace. *)
Definition target (w : world) : Window :=
  if focus_status (dpy w) =? X.False then root (dpy w) else focus (dpy w).

Definition targeting (w : world) : list call :=
  GetInputFocus ::
  (if focus_status (dpy w) =? X.False
   then [Warnx "no input focus; sending events to root window"] else []).

Definition is_warning (c : call) : bool :=
  match c with Warnx _ => true | _ => false end.

Definition is_system (c : call) : bool :=
  match c with System _ => true | _ => false end.

(** ** Sample inputs *)

Definition XK_a : Z := 97.
Definition XK_Shift_L : Z := 65505.
Definition XK_Shift_R : Z := 65506.
Definition ShiftMask : Z := 1.

(** A keyboard with the key [a] and two shift keys. *)
Definition sample_keymap : keymap :=
  {| keycode_of := fun keysym =>
       if keysym =? XK_a then 38
       else if keysym =? XK_Shift_L then 50
       else if keysym =? XK_Shift_R then 62
       else 0;
     modifiers_of := fun keysym =>
       if (keysym =? XK_Shift_L) || (keysym =? XK_Shift_R) then ShiftMask
       else 0 |}.

(** An 800x600 screen with the pointer at (100,100) and the focus on
    window 7, where [system] returns [status] and a layout command gets
    its mapping notification. *)
Definition sample_display_with (status : Z) : Display :=
  {| mapping := sample_keymap; server_mapping := sample_keymap;
     width := 800; height := 600; root := 1; super_l := 65515;
     focus_status := X.True; focus := 7;
     pointer_root := 1; pointer_x := 100; pointer_y := 100;
     queue := [];
     system_status := status; system_mapping := fun _ => sample_keymap;
     system_events :=
       [{| ev_type := X.MappingNotify; ev_request := X.MappingKeyboard |}] |}.

Definition sample_display : Display := sample_display_with 0.

(** The state the program starts in: both statics are zero. *)
Definition start (d : Display) : world :=
  {| dpy := d; modifiers := 0;
     xb := {| xb_root := X.None; x_root := 0; y_root := 0 |} |}.

Definition sample_world : world := start sample_display.

(** The sample world with a shift key held down. *)
Definition shift_held : world := set_modifiers ShiftMask sample_world.

(** The sample world on a machine where [system] cannot start the
    command. *)
Definition no_fork : world := start (sample_display_with (-1)).

Definition seventy : list ascii := repeat "x"%char 70.


(** ** Vocabulary of the line forms *)

(** The value of a string of decimal digits. *)
Definition digits_value (ds : list ascii) : Z :=
  fold_left (fun acc c => 10 * acc + (code c - 48)) ds 0.

(** A decimal numeral as [%d] prints one: a minus sign for a negative
    number, then the digits. *)
Definition numeral (neg : bool) (ds : list ascii) : list ascii :=
  ((if neg then ["-"%char] else []) ++ ds)%list.

(** The [int] it denotes. *)
Definition numeral_value (neg : bool) (ds : list ascii) : Z :=
  C.store_int (if neg then - digits_value ds else digits_value ds).

(** [s] does not go on with a digit. *)
Definition no_digit_head (s : list ascii) : bool :=
  match s with
  | c :: _ => negb (isdigit c)
  | [] => true
  end.

Definition no_digit (s : list ascii) : bool :=
  forallb (fun c => negb (isdigit c)) s.


(** No character of [s] is a newline. *)
Definition no_LF (s : list ascii) : bool :=
  forallb (fun c => negb (Ascii.eqb c LF)) s.


(** ** Vocabulary of the traces *)

(** Every call [m] makes satisfies [P], however [m] ends. *)
Definition emits_only (P : call -> Prop) {A} (m : M A) : Prop :=
  forall w, Forall P (fst (m w)).

(** A computation that, when it returns, leaves [f] of the world alone. *)
Definition stable {X A} (f : world -> X) (m : M A) : Prop :=
  forall w t a w', m w = (t, Done a w') -> f w' = f w.

(** The calls that put an event into the server. *)
Definition injects (c : call) : bool :=
  match c with
  | FakeKeyEvent _ _ _ | FakeButtonEvent _ _ _
  | FakeMotionEvent _ _ _ _ | SendEvent _ _ _ _ => true
  | _ => false
  end.

(** Every injecting call of the trace is followed at once by [Flush]. *)
Fixpoint flushed (t : list call) : bool :=
  match t with
  | [] => true
  | c :: t' =>
      (if injects c then match t' with Flush :: _ => true | _ => false end
       else true) && flushed t'
  end.

(** A command line for the shell that is [setxkbmap], a space and a name
    of letters, at least one. *)
Definition letters_only (command : list ascii) : Prop :=
  exists name,
    command = (setxkbmap ++ name)%list /\ name <> []
    /\ forallb isalpha name = true.

(** What the loop may call, for each injection method. *)
Definition loop_call (method : inject_method) (c : call) : Prop :=
  match c with
  | Err eval msg => eval = 1 /\ msg = "system"%string
  | GetInputFocus | SendEvent _ _ _ _ => method = INJECT_METHOD_SENDEVENT
  | FakeKeyEvent _ _ _ => method = INJECT_METHOD_XTEST
  | System command => letters_only command
  | _ => True
  end.


(** A computation that exits only through [err(1, "system")]. *)
Definition fails_by_system {A} (m : M A) : Prop :=
  forall w t n,
    m w = (t, Exit n) ->
    n = 1 /\ exists t', t = (t' ++ [Err 1 "system"])%list.

Definition is_query (c : call) : bool :=
  match c with QueryPointer => true | _ => false end.

(** The number of pointer queries still to come: one until the pointer
    record holds a root window. *)
Definition queries_left (w : world) : nat :=
  if xb_root (xb w) =? X.None then 1%nat else 0%nat.


Definition is_mapping_notify (e : XEvent) : bool :=
  ev_type e =? X.MappingNotify.

(** The events a layout switch can wait on: those queued when it starts
    and those its command makes the server send. *)
Definition awaited (w : world) : list XEvent :=
  (queue (dpy w) ++ system_events (dpy w))%list.


(** ** The start of [main] *)

(** What the process finds when it starts: its environment, its
    arguments as [getopt] reads them, and the server's answers.  (The
    [pledge] calls, compiled on OpenBSD only, are left out.) *)
Record environment : Type := {
  DISPLAY : option string;        (* getenv("DISPLAY") *)
  getenv_errno : Z;               (* errno after it *)
  XOpenDisplay : option Display;  (* None: NULL *)
  XkbLibraryVersion : bool;
  XkbQueryExtension : bool;
  argc : Z;
  getopt : list ascii;            (* what getopt returns, call after
                                     call, before it returns -1 *)
  XTestQueryExtension : bool;
}.

(** How the start ends: with the method and the connection the loop
    runs with, or with an exit status and the message printed. *)
Inductive started : Type :=
| Ready (method : inject_method) (d : Display)
| Stopped (status : Z) (message : string).

(** [while ((c = getopt(argc, argv, "s")) != -1) switch (c) ...]: the
    value of [want_xtst] after the loop, or [None] when the loop returns
    from [main] with the usage message. *)
Fixpoint options (returned : list ascii) (want_xtst : bool) : option bool :=
  match returned with
  | [] => Some want_xtst
  | c :: returned' =>
      if Ascii.eqb c "s" then options returned' false else None
  end.

(** Lines 156 to 218 of [main]. *)
Definition startup (e : environment) : started :=
  if (match DISPLAY e with None => true | Some _ => false end)
     && negb (getenv_errno e =? 0) then
    Stopped 1 "getenv"
  else
    match XOpenDisplay e with
    | None =>
        match DISPLAY e with
        | None =>
            Stopped 1
              "X11 connection failed; DISPLAY environment variable not set?"
        | Some _ => Stopped 1 "failed X11 connection to '%s'"
        end
    | Some d =>
        if negb (XkbLibraryVersion e) then
          Stopped 1 "trouble with XKB extension; needed %d.%d got %d.%d"
        else if negb (XkbQueryExtension e) then
          Stopped 1 "trouble with XKB extension"
        else
          match (if argc e >=? 2 then options (getopt e) true else Some true) with
          | None => Stopped 1 "Usage: %s [-s]"
          | Some want_xtst =>
              if want_xtst then
                if negb (XTestQueryExtension e) then
                  Stopped 1 "XTEST not available; try %s -s"
                else Ready INJECT_METHOD_XTEST d
              else Ready INJECT_METHOD_SENDEVENT d
          end
    end.

(** The whole program: the start, then the loop from a world in which
    both statics are zero. *)
Definition xin (e : environment) (stdin : list ascii) (ferror : bool)
    (errno : Z) : string + list call * outcome Z :=
  match startup e with
  | Stopped _ message => inl message
  | Ready method d => inr (main method stdin ferror errno (start d))
  end.

(** A machine where everything is there, started as [xin -s]. *)
Definition sample_environment : environment :=
  {| DISPLAY := Some ":0"%string; getenv_errno := 0;
     XOpenDisplay := Some sample_display;
     XkbLibraryVersion := true; XkbQueryExtension := true;
     argc := 2; getopt := ["s"%char];
     XTestQueryExtension := false |}.




(** The messages a start that stops can print. *)
Definition startup_messages : list string :=
  ["getenv";
   "X11 connection failed; DISPLAY environment variable not set?";
   "failed X11 connection to '%s'";
   "trouble with XKB extension; needed %d.%d got %d.%d";
   "trouble with XKB extension";
   "Usage: %s [-s]";
   "XTEST not available; try %s -s"]%string.


(** The same machine started with an option that is not [-s], and
    started without options. *)
Definition wrong_option : environment :=
  {| DISPLAY := Some ":0"%string; getenv_errno := 0;
     XOpenDisplay := Some sample_display;
     XkbLibraryVersion := true; XkbQueryExtension := true;
     argc := 2; getopt := ["x"%char];
     XTestQueryExtension := false |}.

Definition no_option : environment :=
  {| DISPLAY := Some ":0"%string; getenv_errno := 0;
     XOpenDisplay := Some sample_display;
     XkbLibraryVersion := true; XkbQueryExtension := true;
     argc := 1; getopt := [];
     XTestQueryExtension := false |}.

(** * Properties *)

(** ** The effect monad *)

Lemma bind_assoc {A B D} (m : M A) (k : A -> M B) (h : B -> M D) (w : world) :
  bind (bind m k) h w = bind m (fun a => bind (k a) h) w.
Proof.
  unfold bind. destruct (m w) as [t [a w'| |]]; try reflexivity.
  destruct (k a w') as [t' [b w''| |]]; try reflexivity.
  destruct (h b w'') as [t'' o]. now rewrite app_assoc.
Qed.

Lemma bind_ret_l {A B} (a : A) (k : A -> M B) (w : world) :
  bind (ret a) k w = k a w.
Proof. unfold bind, ret. now destruct (k a w). Qed.

(** ** Reading lines *)

Lemma plain_not_LF c : plain c = true -> Ascii.eqb c LF = false.
Proof.
  unfold plain. intros H. apply negb_true_iff in H.
  apply orb_false_iff in H. tauto.
Qed.

Lemma plain_not_end c :
  plain c = true -> Ascii.eqb c NUL || existsb (Ascii.eqb c) [CR; LF] = false.
Proof.
  unfold plain. intros H. apply negb_true_iff in H. simpl.
  now rewrite orb_false_r, orb_assoc.
Qed.

Lemma fgets_read_full l tail :
  forallb plain l = true ->
  fgets_read (List.length l) (l ++ tail) = Line l tail.
Proof.
  induction l as [|c l IH]; simpl; intros H; [reflexivity|].
  apply andb_true_iff in H. destruct H as [Hc Hl].
  now rewrite (plain_not_LF _ Hc), (IH Hl).
Qed.

Lemma fgets_read_line room l rest :
  forallb plain l = true -> (List.length l < room)%nat ->
  fgets_read room (l ++ LF :: rest) = Line (l ++ [LF]) rest.
Proof.
  revert room. induction l as [|c l IH]; intros room H Hlen.
  - destruct room; [simpl in Hlen; lia | reflexivity].
  - destruct room; [simpl in Hlen; lia|].
    simpl in H. apply andb_true_iff in H. destruct H as [Hc Hl].
    simpl. rewrite (plain_not_LF _ Hc), (IH room Hl); [reflexivity|].
    simpl in Hlen. lia.
Qed.

Lemma fgets_chunk pre tail ferror :
  forallb plain pre = true -> List.length pre = 63%nat ->
  fgets 64 (pre ++ tail) ferror = Some (pre, tail).
Proof.
  intros H Hlen. unfold fgets. change (64 - 1)%nat with 63%nat.
  rewrite <- Hlen, fgets_read_full by assumption. reflexivity.
Qed.

Lemma fgets_line line rest ferror :
  fits line ->
  fgets 64 (line ++ LF :: rest) ferror = Some (line ++ [LF], rest).
Proof.
  intros [H Hlen]. unfold fgets. change (64 - 1)%nat with 63%nat.
  rewrite fgets_read_line by (assumption || lia). reflexivity.
Qed.

Lemma fgets_empty ferror : fgets 64 [] ferror = None.
Proof. now destruct ferror. Qed.

Lemma strcspn_plain l tail :
  forallb plain l = true ->
  strcspn (l ++ tail) [CR; LF] = (List.length l + strcspn tail [CR; LF])%nat.
Proof.
  induction l as [|c l IH]; intros H; [reflexivity|].
  simpl in H. apply andb_true_iff in H. destruct H as [Hc Hl].
  change (strcspn ((c :: l) ++ tail) [CR; LF])
    with (if Ascii.eqb c NUL || existsb (Ascii.eqb c) [CR; LF] then O
          else S (strcspn (l ++ tail) [CR; LF])).
  now rewrite (plain_not_end _ Hc), (IH Hl).
Qed.

Lemma strcspn_unterminated l :
  forallb plain l = true -> strcspn l [CR; LF] = List.length l.
Proof.
  intros H. rewrite <- (app_nil_r l) at 1.
  rewrite strcspn_plain by assumption. simpl. lia.
Qed.

Lemma strcspn_terminated l :
  forallb plain l = true -> strcspn (l ++ [LF]) [CR; LF] = List.length l.
Proof. intros H. rewrite strcspn_plain by assumption. simpl. lia. Qed.

(** ** One iteration of the loop *)

Lemma iteration_unterminated method buf skip w :
  forallb plain buf = true ->
  iteration method buf skip w =
  (if skip then [] else [Warnx "parse error; truncated input"], Done true w).
Proof.
  intros H. unfold iteration.
  rewrite (strcspn_unterminated _ H).
  unfold char_at. rewrite nth_overflow by lia.
  now destruct skip.
Qed.


Lemma iteration_line method line w :
  forallb plain line = true ->
  iteration method (line ++ [LF]) false w =
  bind (dispatch method line (List.length line)) (fun _ => ret false) w.
Proof.
  intros H. unfold iteration.
  rewrite (strcspn_terminated _ H).
  unfold char_at at 1. rewrite nth_middle.
  rewrite firstn_app, firstn_all, Nat.sub_diag. simpl.
  now rewrite app_nil_r.
Qed.

Lemma strcspn_le s reject : (strcspn s reject <= List.length s)%nat.
Proof.
  induction s as [|c s IH]; simpl; [lia|].
  destruct (Ascii.eqb c NUL || existsb (Ascii.eqb c) reject); lia.
Qed.

(** The dispatcher always gets a line together with its length. *)
Lemma iteration_cut buf :
  List.length (firstn (strcspn buf [CR; LF]) buf) = strcspn buf [CR; LF].
Proof. rewrite length_firstn. pose proof (strcspn_le buf [CR; LF]). lia. Qed.

(** ** The loop *)

Lemma main_loop_step method ferror input skip w :
  main_loop method ferror input skip w =
  match fgets 64 input ferror with
  | None => ([], Done tt w)
  | Some (buf, rest) =>
      bind (iteration method buf skip)
           (fun skip' => main_loop method ferror rest skip') w
  end.
Proof.
  rewrite main_loop_equation_1.
  assert (G : forall r : {b | fgets 64 input ferror = b},
             main_loop_unfold_clause_1 method ferror input r skip w =
             match proj1_sig r with
             | None => ([], Done tt w)
             | Some (buf, rest) =>
                 bind (iteration method buf skip)
                      (fun skip' => main_loop method ferror rest skip') w
             end).
  { intros [[[buf rest]|] E]; simpl; [|reflexivity].
    unfold bind.
    destruct (iteration method buf skip w) as [t [a w'| |]]; reflexivity. }
  apply (G (inspect (fgets 64 input ferror))).
Qed.

Lemma main_loop_end method ferror skip w :
  main_loop method ferror [] skip w = ([], Done tt w).
Proof. now rewrite main_loop_step, fgets_empty. Qed.

Lemma main_loop_line method ferror line rest w :
  fits line ->
  main_loop method ferror (line ++ LF :: rest) false w =
  bind (dispatch method line (List.length line))
       (fun _ => main_loop method ferror rest false) w.
Proof.
  intros Hfit. rewrite main_loop_step, (fgets_line _ _ _ Hfit).
  destruct Hfit as [H _].
  unfold bind at 1. rewrite (iteration_line _ _ _ H).
  fold (bind (bind (dispatch method line (List.length line)) (fun _ => ret false))
             (fun skip' => main_loop method ferror rest skip') w).
  rewrite bind_assoc. unfold bind at 1 3.
  destruct (dispatch method line (List.length line) w) as [t [[] w'| |]];
    try reflexivity.
  now rewrite bind_ret_l.
Qed.

Lemma split_chunk (long : list ascii) :
  (63 <= List.length long)%nat ->
  exists pre tail, long = (pre ++ tail)%list /\ List.length pre = 63%nat.
Proof.
  intros H. exists (firstn 63 long), (skipn 63 long). split.
  - now rewrite firstn_skipn.
  - rewrite length_firstn. lia.
Qed.



Lemma fgets_read_short room l :
  forallb plain l = true -> (List.length l < room)%nat ->
  fgets_read room l = Short l.
Proof.
  revert room. induction l as [|c l IH]; intros room H Hlen.
  - destruct room; [simpl in Hlen; lia | reflexivity].
  - destruct room; [simpl in Hlen; lia|].
    simpl in H. apply andb_true_iff in H. destruct H as [Hc Hl].
    simpl. rewrite (plain_not_LF _ Hc), (IH room Hl); [reflexivity|].
    simpl in Hlen. lia.
Qed.

(** A last line without its newline counts as truncated. *)
Lemma main_loop_unterminated_tail method long skip w :
  forallb plain long = true -> long <> [] ->
  main_loop method false long skip w =
  (if skip then [] else [Warnx "parse error; truncated input"], Done tt w).
Proof.
  remember (List.length long) as k eqn:Hk. revert long skip Hk.
  induction k as [k IH] using lt_wf_ind. intros long skip Hk H Hne.
  destruct (Nat.le_gt_cases 63 (List.length long)) as [Hlong|Hshort].
  - destruct (split_chunk long Hlong) as (pre & tail & -> & Hpre).
    rewrite forallb_app in H. apply andb_true_iff in H. destruct H as [H1 H2].
    rewrite main_loop_step, (fgets_chunk _ _ _ H1 Hpre).
    unfold bind. rewrite (iteration_unterminated _ _ _ _ H1).
    destruct tail as [|c tail].
    + rewrite main_loop_end. now rewrite app_nil_r.
    + rewrite (IH (List.length (c :: tail))); try easy.
      * now rewrite app_nil_r.
      * rewrite Hk, length_app. lia.
  - rewrite main_loop_step. unfold fgets. change (64 - 1)%nat with 63%nat.
    rewrite (fgets_read_short _ _ H Hshort).
    destruct long as [|c long]; [easy|].
    unfold bind. rewrite (iteration_unterminated _ _ _ _ H).
    rewrite main_loop_end. now rewrite app_nil_r.
Qed.

(** ** Truncated input *)

Lemma iteration_truncated method buf skip w :
  unterminated buf = true ->
  iteration method buf skip w =
  (if skip then [] else [Warnx "parse error; truncated input"], Done true w).
Proof.
  unfold unterminated, iteration. intros ->. now destruct skip.
Qed.

Lemma iteration_remainder method buf w :
  unterminated buf = false ->
  iteration method buf true w = ([], Done false w).
Proof. unfold unterminated, iteration. now intros ->. Qed.

(** While it skips, the loop says nothing up to and including the first
    buffer that holds a line end. *)
Lemma main_loop_skips method ferror bufs remainder input rest w :
  reads ferror (bufs ++ [remainder]) input rest ->
  forallb unterminated bufs = true -> unterminated remainder = false ->
  main_loop method ferror input true w = main_loop method ferror rest false w.
Proof.
  revert input. induction bufs as [|b bs IH]; intros input Hr Hu Ht.
  - destruct Hr as (mid & E & ->).
    rewrite main_loop_step, E. unfold bind.
    rewrite (iteration_remainder _ _ _ Ht).
    now destruct (main_loop method ferror rest false w).
  - destruct Hr as (mid & E & Hr). simpl in Hu.
    apply andb_true_iff in Hu. destruct Hu as [Hb Hu].
    rewrite main_loop_step, E. unfold bind.
    rewrite (iteration_truncated _ _ _ _ Hb), (IH mid Hr Hu Ht).
    now destruct (main_loop method ferror rest false w).
Qed.

Lemma main_loop_truncated_run method ferror bufs remainder input rest w :
  bufs <> [] ->
  reads ferror (bufs ++ [remainder]) input rest ->
  forallb unterminated bufs = true -> unterminated remainder = false ->
  main_loop method ferror input false w =
  (Warnx "parse error; truncated input"
     :: fst (main_loop method ferror rest false w),
   snd (main_loop method ferror rest false w)).
Proof.
  intros Hne Hr Hu Ht. destruct bufs as [|b bs]; [easy|].
  destruct Hr as (mid & E & Hr). simpl in Hu.
  apply andb_true_iff in Hu. destruct Hu as [Hb Hu].
  rewrite main_loop_step, E. unfold bind.
  rewrite (iteration_truncated _ _ _ _ Hb).
  rewrite (main_loop_skips _ _ _ _ _ _ _ Hr Hu Ht).
  now destruct (main_loop method ferror rest false w).
Qed.

(** The same when the stream ends inside the run. *)
Lemma main_loop_truncated_to_end method ferror bufs input rest skip w :
  bufs <> [] ->
  reads ferror bufs input rest -> fgets 64 rest ferror = None ->
  forallb unterminated bufs = true ->
  main_loop method ferror input skip w =
  (if skip then [] else [Warnx "parse error; truncated input"], Done tt w).
Proof.
  revert input skip. induction bufs as [|b bs IH]; [easy|].
  intros input skip _ (mid & E & Hr) Hend Hu. simpl in Hu.
  apply andb_true_iff in Hu. destruct Hu as [Hb Hu].
  rewrite main_loop_step, E. unfold bind.
  rewrite (iteration_truncated _ _ _ _ Hb).
  destruct bs as [|b' bs].
  - simpl in Hr. subst mid. rewrite main_loop_step, Hend.
    now rewrite app_nil_r.
  - rewrite (IH mid true); try easy. now rewrite app_nil_r.
Qed.




(** The run above, as a whole: one diagnostic, then the key press. *)
Lemma truncated_then_key :
  fst (main INJECT_METHOD_XTEST (seventy ++ LF :: chars "k 97" ++ [LF]) false 0
         sample_world)
  = [Warnx "parse error; truncated input"; FakeKeyEvent 38 true 0; Flush].
Proof. reflexivity. Qed.

(** ** The forms of a line *)

Lemma sscanf_three_then_two buf c v1 v2 :
  sscanf_c_d_d buf = Some (c, v1, v2) -> sscanf_c_d buf = Some (c, v1).
Proof.
  unfold sscanf_c_d_d, sscanf_c_d, sscanf.
  change (directives (list_ascii_of_string "%c %d %d"))
    with [Dchar; Dspace; Dint; Dspace; Dint].
  change (directives (list_ascii_of_string "%c %d"))
    with [Dchar; Dspace; Dint].
  destruct buf as [|c0 s]; [discriminate|].
  cbn [scan].
  destruct (skip_space (skip_space s)) as [|d s1] eqn:E1; [discriminate|].
  destruct (scan_int (d :: s1)) as [[v s2]|]; [|discriminate].
  destruct (skip_space (skip_space s2)) as [|d' s3]; [discriminate|].
  destruct (scan_int (d' :: s3)) as [[v' s4]|]; [|discriminate].
  cbn. intros H. now inversion H.
Qed.

Lemma three_fields_not_layout buf name : three_fields buf <> Layout name.
Proof.
  unfold three_fields.
  destruct (sscanf_c_d_d buf) as [[[c v1] v2]|]; [|discriminate].
  destruct (Ascii.eqb c "m"); [discriminate|].
  destruct (Ascii.eqb c "b" || Ascii.eqb c "B"); [discriminate|].
  destruct (Ascii.eqb c "k" || Ascii.eqb c "K"); discriminate.
Qed.

(** The three-field key case of the [switch] is never reached: a line
    that [sscanf] reads as [%c %d %d] with a key character is read as
    [%c %d] first. *)
Lemma key3_unreachable buf n c v1 v2 : classify buf n <> Key3 c v1 v2.
Proof.
  unfold classify.
  destruct (Ascii.eqb (char_at buf 0) "l" && (2 <? Z.of_nat n)); [discriminate|].
  assert (G : sscanf_c_d buf = None \/
              (exists c0 v0, sscanf_c_d buf = Some (c0, v0) /\ is_key c0 = false) ->
              three_fields buf <> Key3 c v1 v2).
  { intros G. unfold three_fields.
    destruct (sscanf_c_d_d buf) as [[[c' v1'] v2']|] eqn:E; [|discriminate].
    apply sscanf_three_then_two in E.
    assert (K : is_key c' = false).
    { destruct G as [G|(c0 & v0 & G & K)]; rewrite E in G; [discriminate|].
      now inversion G. }
    unfold is_key in K.
    destruct (Ascii.eqb c' "m"); [discriminate|].
    destruct (Ascii.eqb c' "b" || Ascii.eqb c' "B"); [discriminate|].
    rewrite K. discriminate. }
  destruct (sscanf_c_d buf) as [[c0 v0]|] eqn:E.
  - destruct (is_key c0) eqn:K; [discriminate|].
    apply G. right. now exists c0, v0.
  - apply G. now left.
Qed.

(** C1. The line [k 97 50] asks for a press with state 97 and the
    explicit keycode 50.  The program injects keycode 38, the one the
    keysym 97 maps to: the line is taken by the two-field form, which
    passes keycode 0.  The call the three-field form would make injects
    keycode 50, and no line ever reaches it. *)
Theorem three_field_key_loses_keycode :
  classify (chars "k 97 50") 7 = Key2 "k" 97
  /\ main INJECT_METHOD_XTEST (chars "k 97 50" ++ [LF]) false 0 sample_world
     = ([FakeKeyEvent 38 true 0; Flush], Done EXIT_SUCCESS sample_world)
  /\ run INJECT_METHOD_XTEST (Key3 "k" 97 50) sample_world
     = ([FakeKeyEvent 50 true 0; Flush], Done tt sample_world)
  /\ forall buf n c v1 v2, classify buf n <> Key3 c v1 v2.
Proof.
  split; [reflexivity|]. split; [reflexivity|]. split; [reflexivity|].
  intros. apply key3_unreachable.
Qed.

(** C4, as the specification states it, fails on [lxus]: the line is
    handed to the layout coordinator with the name [us] although its
    second character is not a space. *)
Lemma layout_without_space :
  classify (chars "lxus") 4 = Layout (chars "us")
  /\ char_at (chars "lxus") 1 <> " "%char.
Proof. split; [reflexivity | discriminate]. Qed.

(** C4, amended. A line is handed to the layout coordinator exactly when
    its first character is [l] and it has more than two characters,
    whatever its second character is; the name passed is the line from
    its third character on. *)
Theorem layout_classification (buf name : list ascii) :
  classify buf (List.length buf) = Layout name <->
  exists c rest, buf = "l"%char :: c :: rest /\ rest <> [] /\ name = rest.
Proof.
  unfold classify. split.
  - destruct (Ascii.eqb (char_at buf 0) "l" && (2 <? Z.of_nat (List.length buf)))
      eqn:T.
    + apply andb_true_iff in T. destruct T as [T1 T2].
      apply Z.ltb_lt in T2.
      destruct buf as [|c0 [|c1 [|c2 rest]]]; simpl in T2; try lia.
      unfold char_at in T1. simpl in T1. apply Ascii.eqb_eq in T1. subst c0.
      intros H. inversion H. exists c1, (c2 :: rest). now repeat split.
    + destruct (sscanf_c_d buf) as [[c v1]|].
      * destruct (is_key c); [discriminate|].
        intros H. now apply three_fields_not_layout in H.
      * intros H. now apply three_fields_not_layout in H.
  - intros (c & rest & -> & Hne & ->).
    destruct rest as [|c2 rest]; [easy|].
    replace (2 <? Z.of_nat (List.length ("l"%char :: c :: c2 :: rest))) with true.
    + reflexivity.
    + symmetry. apply Z.ltb_lt. simpl List.length. lia.
Qed.

(** ** Rejected lines and the end of the loop *)

Lemma dispatch_diagnostic method buf n msg w :
  diagnostic (classify buf n) = Some msg ->
  dispatch method buf n w = ([Warnx msg], Done tt w).
Proof.
  unfold dispatch. destruct (classify buf n); try discriminate;
    intros H; inversion H; reflexivity.
Qed.



(** Lines of both kinds and an empty line, then a clean end of input or
    a read error. *)
Lemma rejected_lines_run :
  main INJECT_METHOD_XTEST
    (chars "x 1 2" ++ LF :: chars "foo" ++ LF :: LF :: chars "k" ++ [LF])
    false 0 sample_world
  = ([Warnx "parse error; unknown control";
      Warnx "parse error; invalid or incomplete format";
      Warnx "parse error; invalid or incomplete format";
      Warnx "parse error; invalid or incomplete format"],
     Done EXIT_SUCCESS sample_world)
  /\ main INJECT_METHOD_XTEST (chars "foo" ++ [LF]) true 0 sample_world
  = ([Warnx "parse error; invalid or incomplete format";
      Err 1 "reading stdin"], Exit 1).
Proof. split; reflexivity. Qed.

(** The other way the process can end while the loop runs: the layout
    coordinator calls [err] when [system] cannot start the command. *)
Lemma layout_spawn_failure :
  main INJECT_METHOD_XTEST (chars "l us" ++ [LF]) false 0 no_fork
  = ([GrabKey 0 0 1; Sync; System (chars "setxkbmap us"); Err 1 "system"],
     Exit 1).
Proof. reflexivity. Qed.

(** ** Pointer motion *)

Lemma to_int_id z : C.in_int z -> C.to_int z = z.
Proof.
  unfold C.in_int, C.INT_MIN, C.INT_MAX, C.to_int. intros H.
  rewrite Z.mod_small; lia.
Qed.

Lemma bounded_clamp v bound : 0 <= bound -> bounded v bound = clamp v bound.
Proof.
  intros H. unfold bounded, clamp.
  destruct (Z.ltb_spec v 0); [|reflexivity].
  destruct (Z.geb_spec 0 bound); [lia | reflexivity].
Qed.

Lemma bounded_range v bound : 0 <= bound -> 0 <= bounded v bound <= bound.
Proof.
  intros H. unfold bounded.
  destruct (Z.ltb_spec v 0);
    match goal with |- context [?a >=? ?b] => destruct (Z.geb_spec a b) end; lia.
Qed.

(** What [xmotion] does, step for step. *)
Lemma xmotion_run dx dy w :
  xmotion dx dy w =
  (seeding w ++
     [FakeMotionEvent 0
        (bounded (C.sub (fst (position w)) dx) (width (dpy w)))
        (bounded (C.sub (snd (position w)) dy) (height (dpy w))) 0;
      Flush],
   Done tt
     (set_xb
        {| xb_root := if xb_root (xb w) =? X.None then pointer_root (dpy w)
                      else xb_root (xb w);
           x_root := bounded (C.sub (fst (position w)) dx) (width (dpy w));
           y_root := bounded (C.sub (snd (position w)) dy) (height (dpy w)) |}
        w)).
Proof.
  unfold xmotion, position, seeding, bind at 1, get.
  destruct (xb_root (xb w) =? X.None); reflexivity.
Qed.

(** C2. A motion command (dx,dy) moves the pointer from (x,y) to
    (clamp(x-dx,0,W), clamp(y-dy,0,H)): the deltas are subtracted, a
    coordinate below 0 becomes 0 and one at or above the bound becomes
    the bound, and an absolute motion event is injected there.  (x,y) is
    the stored position, or the one the server reports on the first
    command; the subtraction is the one of C [int]s, taken here where it
    does not overflow. *)
Theorem motion_subtracts_and_clamps (dx dy : Z) (w : world) :
  0 <= width (dpy w) -> 0 <= height (dpy w) ->
  C.in_int (fst (position w) - dx) -> C.in_int (snd (position w) - dy) ->
  exists w',
    xmotion dx dy w =
      (seeding w ++
         [FakeMotionEvent 0
            (clamp (fst (position w) - dx) (width (dpy w)))
            (clamp (snd (position w) - dy) (height (dpy w))) 0;
          Flush],
       Done tt w')
    /\ x_root (xb w') = clamp (fst (position w) - dx) (width (dpy w))
    /\ y_root (xb w') = clamp (snd (position w) - dy) (height (dpy w))
    /\ dpy w' = dpy w /\ modifiers w' = modifiers w.
Proof.
  intros HW HH Hx Hy. rewrite xmotion_run. unfold C.sub.
  rewrite (to_int_id _ Hx), (to_int_id _ Hy).
  rewrite (bounded_clamp _ _ HW), (bounded_clamp _ _ HH).
  eexists. split; [reflexivity|]. now repeat split.
Qed.

Lemma motion_subtracts_and_clamps_witness :
  exists w',
    xmotion 5 5 sample_world =
      ([QueryPointer; FakeMotionEvent 0 95 95 0; Flush], Done tt w')
    /\ x_root (xb w') = 95 /\ y_root (xb w') = 95
    /\ dpy w' = sample_display /\ modifiers w' = 0.
Proof.
  apply (motion_subtracts_and_clamps 5 5 sample_world).
  - simpl. lia.
  - simpl. lia.
  - unfold C.in_int, C.INT_MIN, C.INT_MAX. simpl. lia.
  - unfold C.in_int, C.INT_MIN, C.INT_MAX. simpl. lia.
Defined.

(** ** What the handlers leave alone *)

Lemma same_pointer_refl w : same_pointer w w.
Proof. now repeat split. Qed.

Lemma same_pointer_trans w1 w2 w3 :
  same_pointer w1 w2 -> same_pointer w2 w3 -> same_pointer w1 w3.
Proof.
  unfold same_pointer. intros (A1 & B1 & C1) (A2 & B2 & C2).
  repeat split; congruence.
Qed.

Lemma keeps_ret {A} (a : A) : keeps (ret a).
Proof. intros w t a' w' H. inversion H. apply same_pointer_refl. Qed.

Lemma keeps_emit c : keeps (emit c).
Proof. intros w t a' w' H. inversion H. apply same_pointer_refl. Qed.

Lemma keeps_hang {A} : keeps (@hang A).
Proof. intros w t a' w' H. inversion H. Qed.

Lemma keeps_err {A} n msg : keeps (@err A n msg).
Proof. intros w t a' w' H. inversion H. Qed.

Lemma keeps_bind {A B} (m : M A) (k : A -> M B) :
  keeps m -> (forall a, keeps (k a)) -> keeps (bind m k).
Proof.
  intros Hm Hk w t b w' H. unfold bind in H.
  destruct (m w) as [t1 [a w1| |]] eqn:E; try discriminate.
  destruct (k a w1) as [t2 o] eqn:E2. inversion H; subst.
  eapply same_pointer_trans; [eapply Hm | eapply Hk]; eauto.
Qed.

Lemma keeps_get_put_then {A} (f : world -> world) (k : world -> M A) :
  (forall w, same_pointer w (f w)) -> (forall w0, keeps (k w0)) ->
  keeps (w <- get ;; put (f w) ;; k w).
Proof.
  intros Hf Hk w t a w' H.
  assert (E : bind get (fun w0 => bind (put (f w0)) (fun _ => k w0)) w
              = k w (f w)).
  { unfold bind, get, put. now destruct (k w (f w)). }
  rewrite E in H. apply Hk in H.
  eapply same_pointer_trans; [apply Hf | exact H].
Qed.

Create HintDb keeps.
#[local] Hint Resolve keeps_ret keeps_emit keeps_hang keeps_err : keeps.

Ltac keeps_direct :=
  let w := fresh "w" in let t := fresh "t" in
  let a := fresh "a" in let w' := fresh "w'" in let H := fresh "H" in
  intros w t a w' H; inversion H; subst; now repeat split.

Ltac keeps_step :=
  lazymatch goal with
  | |- keeps (bind _ _) => apply keeps_bind; [|intros ?]
  end.

Lemma keeps_XKeysymToKeycode k : keeps (XKeysymToKeycode k).
Proof. keeps_direct. Qed.

Lemma keeps_XStringToKeysym s : keeps (XStringToKeysym s).
Proof. keeps_direct. Qed.

Lemma keeps_RootWindow : keeps RootWindow.
Proof. keeps_direct. Qed.

Lemma keeps_XRefreshKeyboardMapping : keeps XRefreshKeyboardMapping.
Proof. keeps_direct. Qed.

Lemma keeps_system s : keeps (system s).
Proof. keeps_direct. Qed.

Lemma keeps_XNextEvent : keeps XNextEvent.
Proof.
  intros w t a w' H. unfold XNextEvent, bind, get in H.
  destruct (queue (dpy w)); inversion H; subst; now repeat split.
Qed.

Lemma keeps_update_mapping e : keeps (update_mapping e).
Proof.
  unfold update_mapping. destruct (ev_request e =? X.MappingKeyboard);
    auto using keeps_XRefreshKeyboardMapping with keeps.
Qed.

Lemma keeps_for_each {A} (l : list A) (body : A -> M unit) :
  (forall a, keeps (body a)) -> keeps (for_each l body).
Proof.
  intros Hb. induction l as [|a l IH]; simpl; auto with keeps.
  apply keeps_bind; auto.
Qed.

Lemma keeps_while_XCheckMaskEvent mask body :
  (forall e, keeps (body e)) -> keeps (while_XCheckMaskEvent mask body).
Proof.
  intros Hb. unfold while_XCheckMaskEvent.
  apply (keeps_get_put_then
           (fun w => set_dpy (set_queue
                       (filter (fun e => negb (selects mask e)) (queue (dpy w)))
                       (dpy w)) w)
           (fun w => for_each (filter (selects mask) (queue (dpy w)))
                       (fun e => emit (TakeEvent e) ;; body e))).
  - intros w. now repeat split.
  - intros w0. apply keeps_for_each. intros e.
    apply keeps_bind; auto with keeps.
Qed.

Lemma keeps_wait_mapping q : keeps (wait_mapping q).
Proof.
  induction q as [|e q IH]; simpl; auto with keeps.
  apply keeps_bind; [apply keeps_XNextEvent|]. intros e'.
  destruct (ev_type e' =? X.MappingNotify); auto using keeps_update_mapping.
Qed.

Lemma keeps_xkblayout layout : keeps (xkblayout layout).
Proof.
  unfold xkblayout.
  destruct (negb (all_alpha layout)); [apply keeps_emit|].
  destruct (snprintf_setxkbmap layout >=? 128); [apply keeps_emit|].
  repeat keeps_step;
    auto using keeps_XStringToKeysym, keeps_XKeysymToKeycode, keeps_RootWindow,
      keeps_system, keeps_while_XCheckMaskEvent, keeps_update_mapping,
      keeps_wait_mapping with keeps.
  - apply keeps_emit.
  - apply keeps_emit.
  - destruct (_ =? -1); auto with keeps.
  - keeps_direct.
Qed.

Lemma xkey_run type state keycode w :
  xkey type state keycode w =
  let resolved :=
    if keycode =? 0 then keycode_of (mapping (dpy w)) state else keycode in
  if resolved =? 0 then
    ([Warnx "couldn't find keycode for a keysym"], Done tt w)
  else
    ([FakeKeyEvent (C.to_uint resolved) (Ascii.eqb type "k") 0; Flush],
     Done tt w).
Proof.
  unfold xkey, bind at 1.
  destruct (keycode =? 0); simpl.
  - now destruct (keycode_of (mapping (dpy w)) state =? 0).
  - now destruct (keycode =? 0).
Qed.

Lemma xbutton_run type state button w :
  xbutton type state button w =
  ([FakeButtonEvent (C.to_uint button) (Ascii.eqb type "b") 0; Flush],
   Done tt w).
Proof. reflexivity. Qed.

(** What [xkey_sendevent] does, step for step. *)
Lemma xkey_sendevent_run type state keycode w :
  xkey_sendevent type state keycode w =
  let is_press := Ascii.eqb type "k" in
  let mods := if is_press
              then C.or_assign (modifiers w) (modifier_bits w state)
              else C.and_not_assign (modifiers w) (modifier_bits w state) in
  (targeting w ++
     [SendEvent (target w) X.False
        (if is_press then X.KeyPressMask else X.KeyReleaseMask)
        {| xkey_type := if is_press then X.KeyPress else X.KeyRelease;
           xkey_window := target w;
           xkey_subwindow := target w;
           xkey_time := X.CurrentTime;
           xkey_state := C.to_uint mods;
           xkey_keycode := C.to_uint (keycode_of (mapping (dpy w)) state) |};
      Flush],
   Done tt (set_modifiers mods w)).
Proof.
  unfold xkey_sendevent, targeting, target, bind at 1, XGetInputFocus.
  simpl. destruct (focus_status (dpy w) =? X.False); reflexivity.
Qed.

Lemma keeps_xkey type state keycode : keeps (xkey type state keycode).
Proof.
  intros w t a w' H. rewrite xkey_run in H. cbv zeta in H.
  destruct (_ =? 0) in H; inversion H; apply same_pointer_refl.
Qed.

Lemma keeps_xbutton type state button : keeps (xbutton type state button).
Proof. keeps_direct. Qed.

Lemma keeps_xkey_sendevent type state keycode :
  keeps (xkey_sendevent type state keycode).
Proof.
  intros w t a w' H. rewrite xkey_sendevent_run in H.
  inversion H. now repeat split.
Qed.

Lemma keeps_run method b :
  (forall v1 v2, b <> Motion v1 v2) -> keeps (run method b).
Proof.
  intros Hb. destruct b; simpl.
  - apply keeps_xkblayout.
  - destruct method; auto using keeps_xkey, keeps_xkey_sendevent.
  - apply keeps_emit.
  - now elim (Hb v1 v2).
  - apply keeps_xbutton.
  - apply keeps_xkey.
  - apply keeps_emit.
Qed.

Lemma fgets_shorter input ferror buf rest :
  fgets 64 input ferror = Some (buf, rest) ->
  (List.length rest < List.length input)%nat.
Proof.
  unfold fgets. change (64 - 1)%nat with 63%nat.
  assert (G : forall room i b r,
             fgets_read (S room) i = Line b r ->
             (List.length r < List.length i)%nat).
  { induction room as [|room IH]; intros i b r E.
    - destruct i as [|c i]; simpl in E; [discriminate|].
      destruct (Ascii.eqb c LF); inversion E; simpl; lia.
    - destruct i as [|c i]; [discriminate|].
      change (fgets_read (S (S room)) (c :: i))
        with (if Ascii.eqb c LF then Line [c] i
              else match fgets_read (S room) i with
                   | Line b r => Line (c :: b) r
                   | Short b => Short (c :: b)
                   end) in E.
      destruct (Ascii.eqb c LF); [inversion E; simpl; lia|].
      destruct (fgets_read (S room) i) eqn:E'; inversion E; subst.
      apply IH in E'. simpl; lia. }
  destruct (fgets_read 63 input) as [b r|b] eqn:E; intros H.
  - inversion H; subst. eapply G; eauto.
  - destruct ferror; [discriminate|].
    destruct b; [discriminate|]. inversion H; subst.
    destruct input; [discriminate | simpl; lia].
Qed.

Lemma xmotion_pointer_ok dx dy w :
  0 <= width (dpy w) -> 0 <= height (dpy w) ->
  exists t w', xmotion dx dy w = (t, Done tt w')
               /\ pointer_ok w' /\ dpy w' = dpy w.
Proof.
  intros HW HH. rewrite xmotion_run. do 2 eexists.
  split; [reflexivity|]. split; [|reflexivity].
  split; simpl; now apply bounded_range.
Qed.

Lemma pointer_ok_same w w' : same_pointer w w' -> pointer_ok w -> pointer_ok w'.
Proof.
  unfold same_pointer, pointer_ok. intros (-> & -> & ->). tauto.
Qed.

(** An iteration keeps the pointer on the screen. *)
Lemma iteration_pointer_ok method buf skip w t s w' :
  0 <= width (dpy w) -> 0 <= height (dpy w) -> pointer_ok w ->
  iteration method buf skip w = (t, Done s w') ->
  pointer_ok w' /\ width (dpy w') = width (dpy w)
  /\ height (dpy w') = height (dpy w).
Proof.
  intros HW HH Hok. unfold iteration.
  destruct (Ascii.eqb (char_at buf (strcspn buf [CR; LF])) NUL).
  - destruct skip; intros H; inversion H; subst; tauto.
  - destruct skip; [intros H; inversion H; subst; tauto|].
    unfold dispatch.
    destruct (classify _ _) as [l|c v1| |v1 v2|c v1 v2|c v1 v2|] eqn:E;
      try (intros H;
           match type of H with
           | bind (run ?m ?b) ?k w = _ =>
               assert (K : keeps (bind (run m b) k))
                 by (apply keeps_bind;
                     [apply keeps_run; discriminate | intros; apply keeps_ret]);
               apply K in H;
               split; [now apply (pointer_ok_same w) | destruct H; tauto]
           end).
    simpl run. unfold bind.
    destruct (xmotion_pointer_ok v1 v2 w HW HH) as (t1 & w1 & -> & Hok1 & Hd).
    simpl. intros H. inversion H; subst. rewrite Hd. tauto.
Qed.

Lemma main_loop_pointer_ok method ferror input skip w t w' :
  0 <= width (dpy w) -> 0 <= height (dpy w) -> pointer_ok w ->
  main_loop method ferror input skip w = (t, Done tt w') ->
  pointer_ok w'.
Proof.
  remember (List.length input) as k eqn:Hk. revert input skip w t Hk.
  induction k as [k IH] using lt_wf_ind. intros input skip w t Hk HW HH Hok.
  rewrite main_loop_step.
  destruct (fgets 64 input ferror) as [[buf rest]|] eqn:E.
  - unfold bind.
    destruct (iteration method buf skip w) as [t1 [s w1| |]] eqn:E1;
      try discriminate.
    destruct (main_loop method ferror rest s w1) as [t2 o] eqn:E2.
    intros H. inversion H; subst.
    destruct (iteration_pointer_ok _ _ _ _ _ _ _ HW HH Hok E1) as (Hok1 & W1 & H1).
    apply fgets_shorter in E.
    eapply (IH (List.length rest) E rest s w1 t2 eq_refl); try eassumption; lia.
  - intros H. now inversion H; subst.
Qed.

(** C8. A motion command leaves the stored pointer position within
    [0, width] x [0, height], whatever it was before and whether it was
    seeded by this command or earlier; a line that is not handed to
    [xmotion] leaves the pointer record as it was; so from a position on
    the screen every run of the loop ends with one. *)
Theorem pointer_stays_on_screen
    (method : inject_method) (ferror : bool) (dx dy : Z)
    (buf stdin : list ascii) (n : nat) (w : world) :
  0 <= width (dpy w) -> 0 <= height (dpy w) ->
  (exists t w', xmotion dx dy w = (t, Done tt w')
                /\ 0 <= x_root (xb w') <= width (dpy w')
                /\ 0 <= y_root (xb w') <= height (dpy w'))
  /\ ((forall v1 v2, classify buf n <> Motion v1 v2) ->
      forall t w', dispatch method buf n w = (t, Done tt w') -> xb w' = xb w)
  /\ (pointer_ok w ->
      forall t w', main_loop method ferror stdin false w = (t, Done tt w') ->
                   pointer_ok w').
Proof.
  intros HW HH. split; [|split].
  - destruct (xmotion_pointer_ok dx dy w HW HH) as (t & w' & E & [Hx Hy] & Hd).
    exists t, w'. now repeat split.
  - intros Hb t w' H. apply (keeps_run method _ Hb) in H. apply H.
  - intros Hok t w' H. eapply main_loop_pointer_ok; eauto.
Qed.

Lemma pointer_stays_on_screen_witness :
  0 <= width (dpy sample_world) /\ 0 <= height (dpy sample_world)
  /\ exists t w', xmotion 900 (-900) sample_world = (t, Done tt w')
                  /\ 0 <= x_root (xb w') <= width (dpy w')
                  /\ 0 <= y_root (xb w') <= height (dpy w').
Proof.
  assert (HW : 0 <= width (dpy sample_world)) by (simpl; lia).
  assert (HH : 0 <= height (dpy sample_world)) by (simpl; lia).
  split; [exact HW | split; [exact HH |]].
  exact (proj1 (pointer_stays_on_screen INJECT_METHOD_XTEST false 900 (-900)
                  [] [] 0 sample_world HW HH)).
Defined.

(** ** Modifier accounting *)

Lemma to_uint_range z : 0 <= C.to_uint z < 2 ^ 32.
Proof. unfold C.to_uint. apply Z.mod_pos_bound. lia. Qed.

Lemma to_uint_to_int z : C.to_uint (C.to_int z) = C.to_uint z.
Proof.
  unfold C.to_uint, C.to_int. rewrite Zminus_mod_idemp_l.
  f_equal. lia.
Qed.

Lemma to_int_to_uint z : C.in_int z -> C.to_int (C.to_uint z) = z.
Proof.
  intros H. unfold C.to_uint, C.to_int. rewrite Zplus_mod_idemp_l.
  now apply to_int_id.
Qed.

Lemma to_uint_small z : 0 <= z < 2 ^ 32 -> C.to_uint z = z.
Proof. intros H. unfold C.to_uint. now apply Z.mod_small. Qed.

Lemma testbit_to_uint z i :
  Z.testbit (C.to_uint z) i = (i <? 32) && Z.testbit z i.
Proof. unfold C.to_uint. apply Z.testbit_mod_pow2. lia. Qed.

Lemma testbit_small z i :
  0 <= z < 2 ^ 32 -> Z.testbit z i = (i <? 32) && Z.testbit z i.
Proof.
  intros H. rewrite <- (to_uint_small z H) at 1. apply testbit_to_uint.
Qed.

Lemma lor_small a u :
  0 <= a < 2 ^ 32 -> 0 <= u < 2 ^ 32 -> 0 <= Z.lor a u < 2 ^ 32.
Proof.
  intros Ha Hu. split; [apply Z.lor_nonneg; lia|].
  destruct (Z.eq_dec (Z.lor a u) 0) as [->|Hne]; [lia|].
  apply Z.log2_lt_pow2; [assert (0 <= Z.lor a u) by (apply Z.lor_nonneg; lia); lia|].
  rewrite Z.log2_lor by lia.
  apply Z.max_lub_lt.
  - destruct (Z.eq_dec a 0) as [->|]; [simpl; lia|].
    apply Z.log2_lt_pow2; lia.
  - destruct (Z.eq_dec u 0) as [->|]; [simpl; lia|].
    apply Z.log2_lt_pow2; lia.
Qed.

(** The bits a press leaves set, read back as [unsigned int]. *)
Lemma to_uint_or_assign m u :
  0 <= u < 2 ^ 32 -> C.to_uint (C.or_assign m u) = Z.lor (C.to_uint m) u.
Proof.
  intros Hu. unfold C.or_assign. rewrite to_uint_to_int.
  apply to_uint_small. apply lor_small; [apply to_uint_range | assumption].
Qed.

Lemma and_not_after_or m u :
  0 <= u < 2 ^ 32 ->
  C.and_not_assign (C.or_assign m u) u = C.and_not_assign m u.
Proof.
  intros Hu. unfold C.and_not_assign at 1. rewrite (to_uint_or_assign _ _ Hu).
  unfold C.and_not_assign. f_equal.
  apply Z.bits_inj'. intros i Hi.
  rewrite !Z.land_spec, Z.lor_spec, !(testbit_to_uint (Z.lnot u)),
    Z.lnot_spec by assumption.
  destruct (Z.testbit (C.to_uint m) i), (Z.testbit u i), (i <? 32); reflexivity.
Qed.

Lemma and_not_assign_unset m u :
  C.in_int m -> 0 <= u < 2 ^ 32 ->
  (C.and_not_assign m u = m <-> Z.land (C.to_uint m) u = 0).
Proof.
  intros Hm Hu. unfold C.and_not_assign. split.
  - intros H. apply (f_equal C.to_uint) in H. rewrite to_uint_to_int in H.
    apply Z.bits_inj'. intros i Hi.
    apply (f_equal (fun z => Z.testbit z i)) in H.
    rewrite (testbit_to_uint (Z.land _ _)), Z.land_spec,
      (testbit_to_uint (Z.lnot u)), Z.lnot_spec in H by assumption.
    rewrite Z.land_spec, Z.bits_0.
    destruct (Z.testbit (C.to_uint m) i), (Z.testbit u i), (i <? 32);
      simpl in *; congruence.
  - intros H.
    replace (Z.land (C.to_uint m) (C.to_uint (Z.lnot u))) with (C.to_uint m).
    + now apply to_int_to_uint.
    + apply Z.bits_inj'. intros i Hi.
      apply (f_equal (fun z => Z.testbit z i)) in H.
      rewrite Z.land_spec, Z.bits_0 in H.
      rewrite Z.land_spec, (testbit_to_uint (Z.lnot u)), Z.lnot_spec by assumption.
      rewrite testbit_to_uint in *.
      destruct (Z.testbit m i), (Z.testbit u i), (i <? 32);
        simpl in *; congruence.
Qed.

Lemma or_assign_sets m u :
  0 <= u < 2 ^ 32 -> Z.land (C.to_uint (C.or_assign m u)) u = u.
Proof.
  intros Hu. rewrite (to_uint_or_assign _ _ Hu).
  apply Z.bits_inj'. intros i Hi. rewrite Z.land_spec, Z.lor_spec.
  destruct (Z.testbit (C.to_uint m) i), (Z.testbit u i); reflexivity.
Qed.

(** C3, as the specification states it, fails when the modifier is
    already held: with one shift key down, pressing and releasing the
    other one leaves the bit clear, not as it was before the press. *)
Lemma release_clears_held_modifier :
  snd (main_loop INJECT_METHOD_SENDEVENT false (chars "k 65505" ++ [LF]) false
         sample_world) = Done tt shift_held
  /\ modifiers shift_held = ShiftMask
  /\ modifier_bits shift_held XK_Shift_R = ShiftMask
  /\ snd (bind (xkey_sendevent "k" XK_Shift_R 0)
            (fun _ => xkey_sendevent "K" XK_Shift_R 0) shift_held)
     = Done tt (set_modifiers 0 shift_held)
  /\ modifiers (set_modifiers 0 shift_held) <> modifiers shift_held.
Proof. repeat split; discriminate. Qed.

(** C3, amended. In the direct-delivery path a press of a keysym
    followed by its release leaves the modifier bitmask equal to its
    value before the press with the keysym's modifier bits cleared; that
    is the value before the press exactly when none of these bits was set
    then.  After the press alone the bits are set. *)
Theorem press_release_clears_bits (keysym kc kc' : Z) (w : world) :
  C.in_int (modifiers w) ->
  exists t1 w1 t2 w2,
    xkey_sendevent "k" keysym kc w = (t1, Done tt w1)
    /\ xkey_sendevent "K" keysym kc' w1 = (t2, Done tt w2)
    /\ Z.land (C.to_uint (modifiers w1)) (modifier_bits w keysym)
       = modifier_bits w keysym
    /\ modifiers w2 = C.and_not_assign (modifiers w) (modifier_bits w keysym)
    /\ (modifiers w2 = modifiers w <->
        Z.land (C.to_uint (modifiers w)) (modifier_bits w keysym) = 0).
Proof.
  intros Hm. rewrite xkey_sendevent_run.
  do 2 eexists. rewrite xkey_sendevent_run. do 2 eexists.
  split; [reflexivity|]. split; [reflexivity|].
  pose proof (to_uint_range (modifiers_of (mapping (dpy w)) keysym)) as Hu.
  fold (modifier_bits w keysym) in Hu. simpl.
  change (modifier_bits (set_modifiers _ w) keysym) with (modifier_bits w keysym).
  split; [now apply or_assign_sets|].
  rewrite (and_not_after_or _ _ Hu).
  split; [reflexivity|]. now apply and_not_assign_unset.
Qed.

Lemma press_release_clears_bits_witness :
  C.in_int (modifiers sample_world)
  /\ exists t1 w1 t2 w2,
    xkey_sendevent "k" XK_Shift_L 0 sample_world = (t1, Done tt w1)
    /\ xkey_sendevent "K" XK_Shift_L 0 w1 = (t2, Done tt w2)
    /\ Z.land (C.to_uint (modifiers w1)) (modifier_bits sample_world XK_Shift_L)
       = modifier_bits sample_world XK_Shift_L
    /\ modifiers w2
       = C.and_not_assign (modifiers sample_world)
           (modifier_bits sample_world XK_Shift_L)
    /\ (modifiers w2 = modifiers sample_world <->
        Z.land (C.to_uint (modifiers sample_world))
          (modifier_bits sample_world XK_Shift_L) = 0).
Proof.
  assert (Hm : C.in_int (modifiers sample_world))
    by (unfold C.in_int, C.INT_MIN, C.INT_MAX; simpl; lia).
  split; [exact Hm|].
  exact (press_release_clears_bits XK_Shift_L 0 0 sample_world Hm).
Defined.

(** ** A keysym without a keycode *)

(** C9. When the keysym has no keycode, the direct-delivery path still
    updates the modifier bitmask and still sends the event, with keycode
    0, to the target window; it emits no diagnostic for the missing
    keycode (its only warning is the one about the input focus, which
    does not depend on the keysym).  The replay path, asked to derive
    the keycode, warns and injects nothing. *)
Theorem sendevent_ignores_missing_keycode
    (type : ascii) (keysym kc : Z) (w : world) :
  keycode_of (mapping (dpy w)) keysym = 0 ->
  let is_press := Ascii.eqb type "k" in
  let mods := if is_press
              then C.or_assign (modifiers w) (modifier_bits w keysym)
              else C.and_not_assign (modifiers w) (modifier_bits w keysym) in
  xkey_sendevent type keysym kc w =
    (targeting w ++
       [SendEvent (target w) X.False
          (if is_press then X.KeyPressMask else X.KeyReleaseMask)
          {| xkey_type := if is_press then X.KeyPress else X.KeyRelease;
             xkey_window := target w;
             xkey_subwindow := target w;
             xkey_time := X.CurrentTime;
             xkey_state := C.to_uint mods;
             xkey_keycode := 0 |};
        Flush],
     Done tt (set_modifiers mods w))
  /\ ~ In (Warnx "couldn't find keycode for a keysym")
          (fst (xkey_sendevent type keysym kc w))
  /\ (focus_status (dpy w) <> X.False ->
      filter is_warning (fst (xkey_sendevent type keysym kc w)) = [])
  /\ xkey type keysym 0 w =
     ([Warnx "couldn't find keycode for a keysym"], Done tt w).
Proof.
  intros H0 is_press mods. rewrite xkey_sendevent_run, xkey_run.
  cbv zeta. fold is_press. fold mods. rewrite H0.
  split; [reflexivity|]. unfold targeting, fst.
  split; [|split; [|reflexivity]].
  - destruct (focus_status (dpy w) =? X.False); simpl;
      intros [H|[H|[H|H]]]; try discriminate; try contradiction.
    destruct H; [discriminate | contradiction].
  - intros Hf. apply Z.eqb_neq in Hf. now rewrite Hf.
Qed.

Lemma sendevent_ignores_missing_keycode_witness :
  keycode_of (mapping (dpy sample_world)) 4660 = 0
  /\ xkey_sendevent "k" 4660 0 sample_world =
     ([GetInputFocus;
       SendEvent 7 0 1
         {| xkey_type := 2; xkey_window := 7; xkey_subwindow := 7;
            xkey_time := 0; xkey_state := 0; xkey_keycode := 0 |};
       Flush],
      Done tt sample_world)
  /\ xkey "k" 4660 0 sample_world =
     ([Warnx "couldn't find keycode for a keysym"], Done tt sample_world).
Proof.
  split; [reflexivity|].
  pose proof (sendevent_ignores_missing_keycode "k" 4660 0 sample_world eq_refl)
    as (H1 & _ & _ & H2).
  split; [exact H1 | exact H2].
Defined.

(** ** The layout name *)

Lemma cstring_cons c l :
  cstring (c :: l) = if Ascii.eqb c NUL then [] else c :: cstring l.
Proof.
  unfold cstring, strlen. simpl. rewrite orb_false_r.
  now destruct (Ascii.eqb c NUL).
Qed.

Lemma all_alpha_cstring layout :
  all_alpha layout = forallb isalpha (cstring layout).
Proof.
  induction layout as [|c l IH]; [reflexivity|].
  rewrite cstring_cons. simpl. destruct (Ascii.eqb c NUL); [reflexivity|].
  simpl. now destruct (isalpha c).
Qed.

(** C6. The layout command is run only for a name all of whose
    characters are letters; a name with any other character gives the
    warning and nothing else: no command is run, the display server is
    not spoken to, and nothing changes. *)
Theorem layout_name_validated (layout : list ascii) (w : world) :
  (forallb isalpha (cstring layout) = false ->
   xkblayout layout w =
   ([Warnx "layout name cannot contain special characters"], Done tt w))
  /\ (forall command,
        In (System command) (fst (xkblayout layout w)) ->
        forallb isalpha (cstring layout) = true).
Proof.
  assert (G : forallb isalpha (cstring layout) = false ->
              xkblayout layout w =
              ([Warnx "layout name cannot contain special characters"],
               Done tt w)).
  { intros H. unfold xkblayout. now rewrite all_alpha_cstring, H. }
  split; [exact G|]. intros command Hin.
  destruct (forallb isalpha (cstring layout)); [reflexivity|].
  rewrite (G eq_refl) in Hin. destruct Hin as [Hin|[]]. discriminate.
Qed.

Lemma layout_name_validated_witness :
  forallb isalpha (cstring (chars "us-2")) = false
  /\ xkblayout (chars "us-2") sample_world =
     ([Warnx "layout name cannot contain special characters"],
      Done tt sample_world).
Proof.
  split; [reflexivity|].
  exact (proj1 (layout_name_validated (chars "us-2") sample_world) eq_refl).
Defined.

(** The three lines of the specification, through [main]: the first
    runs the command, the other two only warn. *)
Lemma layout_lines :
  filter is_system
    (fst (main INJECT_METHOD_XTEST (chars "l us" ++ [LF]) false 0 sample_world))
  = [System (chars "setxkbmap us")]
  /\ fst (main INJECT_METHOD_XTEST (chars "l us-2" ++ [LF]) false 0 sample_world)
     = [Warnx "layout name cannot contain special characters"]
  /\ fst (main INJECT_METHOD_XTEST (chars "l ; rm -rf" ++ [LF]) false 0
            sample_world)
     = [Warnx "layout name cannot contain special characters"].
Proof. repeat split. Qed.

(** C10. A name of letters only that is 118 characters long or longer is
    refused with the diagnostic for a name that is too long, and nothing
    else happens: with the ten characters of the command and the NUL it
    does not fit the 128 bytes. *)
Theorem long_layout_name_rejected (layout : list ascii) (w : world) :
  forallb isalpha (cstring layout) = true ->
  (118 <= strlen layout)%nat ->
  xkblayout layout w = ([Warnx "layout name too long"], Done tt w).
Proof.
  intros Ha Hlen. unfold xkblayout. rewrite all_alpha_cstring, Ha. simpl negb.
  cbv iota. unfold snprintf_setxkbmap.
  change (List.length setxkbmap) with 10%nat.
  destruct (Z.geb_spec (Z.of_nat (10 + strlen layout)) 128); [reflexivity | lia].
Qed.

Lemma long_layout_name_rejected_witness :
  forallb isalpha (cstring (repeat "a"%char 118)) = true
  /\ (118 <= strlen (repeat "a"%char 118))%nat
  /\ xkblayout (repeat "a"%char 118) sample_world =
     ([Warnx "layout name too long"], Done tt sample_world).
Proof.
  assert (Ha : forallb isalpha (cstring (repeat "a"%char 118)) = true)
    by reflexivity.
  assert (Hl : (118 <= strlen (repeat "a"%char 118))%nat)
    by (apply Nat.leb_le; reflexivity).
  split; [exact Ha | split; [exact Hl |]].
  exact (long_layout_name_rejected _ sample_world Ha Hl).
Defined.

(** A name of 117 letters is the longest that is accepted. *)
Lemma layout_name_117_accepted :
  filter is_system (fst (xkblayout (repeat "a"%char 117) sample_world))
  = [System (setxkbmap ++ repeat "a"%char 117)].
Proof. reflexivity. Qed.

Lemma strlen_le l : (strlen l <= List.length l)%nat.
Proof.
  unfold strlen. induction l as [|a l IH]; simpl; [lia|].
  destruct (Ascii.eqb a NUL || false); lia.
Qed.

Lemma classify_layout_name buf n name :
  classify buf n = Layout name -> name = skipn 2 buf.
Proof.
  unfold classify.
  destruct (Ascii.eqb (char_at buf 0) "l" && (2 <? Z.of_nat n)).
  - intros H. now inversion H.
  - destruct (sscanf_c_d buf) as [[c v1]|].
    + destruct (is_key c); [discriminate|].
      intros H. now apply three_fields_not_layout in H.
    + intros H. now apply three_fields_not_layout in H.
Qed.

(** A name that comes from a line of standard input has at most 60
    characters: through [main] the length test never fires. *)
Lemma layout_name_from_line line name :
  fits line -> classify line (List.length line) = Layout name ->
  (strlen name <= 60)%nat.
Proof.
  intros [_ Hlen] H. apply classify_layout_name in H. subst name.
  pose proof (strlen_le (skipn 2 line)) as G.
  rewrite length_skipn in G. lia.
Qed.

(** * Further properties of the program *)

(** ** Numerals and white space *)

Lemma skip_space_app ws s :
  forallb isspace ws = true -> skip_space (ws ++ s) = skip_space s.
Proof.
  induction ws as [|c ws IH]; simpl; intros H; [reflexivity|].
  apply andb_true_iff in H. destruct H as [Hc Hw]. now rewrite Hc, IH.
Qed.

Lemma isdigit_not_space c : isdigit c = true -> isspace c = false.
Proof.
  unfold isdigit, isspace. intros H. apply andb_true_iff in H.
  destruct H as [H1 H2]. apply Z.leb_le in H1. apply Z.leb_le in H2.
  apply orb_false_iff. split.
  - apply Z.eqb_neq. lia.
  - apply andb_false_iff. right. apply Z.leb_gt. lia.
Qed.

Lemma isdigit_code c : isdigit c = true -> 48 <= code c <= 57.
Proof.
  unfold isdigit. intros H. apply andb_true_iff in H.
  destruct H as [H1 H2]. apply Z.leb_le in H1. apply Z.leb_le in H2. lia.
Qed.

Lemma scan_digits_app acc ds tail :
  forallb isdigit ds = true -> no_digit_head tail = true ->
  scan_digits acc (ds ++ tail) =
  (fold_left (fun a c => 10 * a + (code c - 48)) ds acc, tail).
Proof.
  revert acc. induction ds as [|c ds IH]; intros acc Hd Ht.
  - simpl. destruct tail as [|c tail]; [reflexivity|].
    simpl in Ht. apply negb_true_iff in Ht. simpl. now rewrite Ht.
  - simpl in Hd. apply andb_true_iff in Hd. destruct Hd as [Hc Hd].
    simpl. rewrite Hc. now apply IH.
Qed.

(** A digit is neither sign. *)
Lemma scan_int_digit c s :
  isdigit c = true ->
  scan_int (c :: s) =
  let '(v, rest) := scan_digits 0 (c :: s) in Some (C.store_int v, rest).
Proof.
  intros Hc.
  destruct c as [[] [] [] [] [] [] [] []];
    vm_compute in Hc; try discriminate Hc; reflexivity.
Qed.

Lemma scan_int_numeral neg ds tail :
  ds <> [] -> forallb isdigit ds = true -> no_digit_head tail = true ->
  scan_int (numeral neg ds ++ tail) = Some (numeral_value neg ds, tail).
Proof.
  intros Hne Hd Ht. destruct ds as [|c ds]; [easy|].
  pose proof Hd as Hd'. simpl in Hd'. apply andb_true_iff in Hd'.
  destruct Hd' as [Hc _].
  unfold numeral, numeral_value, digits_value. destruct neg.
  - change (scan_int ((["-"%char] ++ c :: ds) ++ tail))
      with (match (c :: ds) ++ tail with
            | c0 :: _ =>
                if isdigit c0 then
                  let '(v, rest) := scan_digits 0 ((c :: ds) ++ tail) in
                  Some (C.store_int (- v), rest)
                else None
            | [] => None
            end).
    cbn [app]. rewrite Hc.
    change (c :: ds ++ tail)%list with ((c :: ds) ++ tail)%list.
    now rewrite (scan_digits_app 0 (c :: ds) tail Hd Ht).
  - cbn [app]. rewrite (scan_int_digit c (ds ++ tail) Hc).
    change (c :: ds ++ tail)%list with ((c :: ds) ++ tail)%list.
    now rewrite (scan_digits_app 0 (c :: ds) tail Hd Ht).
Qed.

Lemma numeral_head_not_space neg ds tail :
  ds <> [] -> forallb isdigit ds = true ->
  skip_space (numeral neg ds ++ tail) = (numeral neg ds ++ tail)%list.
Proof.
  intros Hne Hd. destruct ds as [|c ds]; [easy|].
  simpl in Hd. apply andb_true_iff in Hd. destruct Hd as [Hc _].
  unfold numeral. destruct neg; simpl; [reflexivity|].
  now rewrite (isdigit_not_space c Hc).
Qed.

(** Reading one number after any white space. *)
Lemma scan_field ws neg ds tail :
  forallb isspace ws = true ->
  ds <> [] -> forallb isdigit ds = true -> no_digit_head tail = true ->
  skip_space (skip_space (ws ++ numeral neg ds ++ tail))
    = (numeral neg ds ++ tail)%list
  /\ scan_int (numeral neg ds ++ tail) = Some (numeral_value neg ds, tail)
  /\ numeral neg ds ++ tail <> []%list.
Proof.
  intros Hw Hne Hd Ht. split; [|split].
  - rewrite (skip_space_app _ _ Hw).
    now rewrite !(numeral_head_not_space neg ds tail Hne Hd).
  - now apply scan_int_numeral.
  - unfold numeral. destruct ds; [easy|]. now destruct neg.
Qed.

Lemma sscanf_c_d_fields c ws neg ds tail :
  forallb isspace ws = true ->
  ds <> [] -> forallb isdigit ds = true -> no_digit_head tail = true ->
  sscanf_c_d (c :: ws ++ numeral neg ds ++ tail)
  = Some (c, numeral_value neg ds).
Proof.
  intros Hw Hne Hd Ht.
  destruct (scan_field ws neg ds tail Hw Hne Hd Ht) as (E1 & E2 & E3).
  unfold sscanf_c_d, sscanf.
  change (directives (list_ascii_of_string "%c %d"))
    with [Dchar; Dspace; Dint].
  cbn [scan]. rewrite E1.
  destruct (numeral neg ds ++ tail)%list as [|d s1] eqn:E; [easy|].
  now rewrite E2.
Qed.

Lemma sscanf_c_d_d_fields c ws1 neg1 ds1 ws2 neg2 ds2 tail :
  forallb isspace ws1 = true ->
  ds1 <> [] -> forallb isdigit ds1 = true ->
  no_digit_head (ws2 ++ numeral neg2 ds2 ++ tail) = true ->
  forallb isspace ws2 = true ->
  ds2 <> [] -> forallb isdigit ds2 = true -> no_digit_head tail = true ->
  sscanf_c_d_d
    (c :: ws1 ++ numeral neg1 ds1 ++ ws2 ++ numeral neg2 ds2 ++ tail)
  = Some (c, numeral_value neg1 ds1, numeral_value neg2 ds2).
Proof.
  intros Hw1 Hne1 Hd1 Hsep Hw2 Hne2 Hd2 Ht.
  destruct (scan_field ws1 neg1 ds1 _ Hw1 Hne1 Hd1 Hsep) as (E1 & E2 & E3).
  destruct (scan_field ws2 neg2 ds2 tail Hw2 Hne2 Hd2 Ht) as (F1 & F2 & F3).
  unfold sscanf_c_d_d, sscanf.
  change (directives (list_ascii_of_string "%c %d %d"))
    with [Dchar; Dspace; Dint; Dspace; Dint].
  cbn [scan]. rewrite E1.
  destruct (numeral neg1 ds1 ++ ws2 ++ numeral neg2 ds2 ++ tail)%list
    as [|d s1] eqn:E; [easy|].
  rewrite E2, F1.
  destruct (numeral neg2 ds2 ++ tail)%list as [|d' s2] eqn:F; [easy|].
  now rewrite F2.
Qed.

(** ** Lines with numbers *)

Lemma is_key_not_l c : is_key c = true -> Ascii.eqb c "l" = false.
Proof.
  unfold is_key. intros H. apply orb_true_iff in H.
  destruct H as [H|H]; apply Ascii.eqb_eq in H; now subst.
Qed.

(** X1. A line made of [k] or [K], any white space (none included), a
    decimal number and anything that does not go on with a digit is a key
    command for that number with keycode 0: the space is optional and
    what follows the number is not looked at. *)
Theorem key_line_parsed
    (c : ascii) (ws : list ascii) (neg : bool) (ds tail : list ascii) (n : nat) :
  is_key c = true ->
  forallb isspace ws = true ->
  ds <> [] -> forallb isdigit ds = true -> no_digit_head tail = true ->
  classify (c :: ws ++ numeral neg ds ++ tail) n
  = Key2 c (numeral_value neg ds).
Proof.
  intros Hk Hw Hne Hd Ht. unfold classify.
  change (char_at (c :: ws ++ numeral neg ds ++ tail) 0) with c.
  rewrite (is_key_not_l c Hk). cbn [andb].
  rewrite (sscanf_c_d_fields c ws neg ds tail Hw Hne Hd Ht).
  now rewrite Hk.
Qed.

Lemma key_line_parsed_witness :
  classify (chars "K65xyz") 6 = Key2 "K" 65
  /\ classify (chars "k   -12 34") 10 = Key2 "k" (-12).
Proof.
  split.
  - exact (key_line_parsed "K" [] false (chars "65") (chars "xyz") 6
             eq_refl eq_refl ltac:(discriminate) eq_refl eq_refl).
  - exact (key_line_parsed "k" (chars "   ") true (chars "12") (chars " 34") 10
             eq_refl eq_refl ltac:(discriminate) eq_refl eq_refl).
Defined.

(** X2. A line made of a character other than [l], [k] and [K], a
    number, a second number and anything that does not go on with a
    digit is a motion command for [m], a button command for [b] and [B],
    each with the two numbers, and an unknown control for every other
    character.  White space before a number is optional as long as the
    second number does not run into the first. *)
Theorem control_line_parsed
    (c : ascii) (ws1 : list ascii) (neg1 : bool) (ds1 : list ascii)
    (ws2 : list ascii) (neg2 : bool) (ds2 tail : list ascii) (n : nat) :
  Ascii.eqb c "l" = false -> is_key c = false ->
  forallb isspace ws1 = true ->
  ds1 <> [] -> forallb isdigit ds1 = true ->
  no_digit_head (ws2 ++ numeral neg2 ds2 ++ tail) = true ->
  forallb isspace ws2 = true ->
  ds2 <> [] -> forallb isdigit ds2 = true -> no_digit_head tail = true ->
  classify
    (c :: ws1 ++ numeral neg1 ds1 ++ ws2 ++ numeral neg2 ds2 ++ tail) n
  = if Ascii.eqb c "m" then
      Motion (numeral_value neg1 ds1) (numeral_value neg2 ds2)
    else if Ascii.eqb c "b" || Ascii.eqb c "B" then
      Button c (numeral_value neg1 ds1) (numeral_value neg2 ds2)
    else Unknown.
Proof.
  intros Hl Hk Hw1 Hne1 Hd1 Hsep Hw2 Hne2 Hd2 Ht. unfold classify.
  change (char_at (c :: ws1 ++ numeral neg1 ds1 ++ ws2 ++ numeral neg2 ds2
                     ++ tail) 0) with c.
  rewrite Hl. cbn [andb].
  rewrite (sscanf_c_d_fields c ws1 neg1 ds1 _ Hw1 Hne1 Hd1 Hsep), Hk.
  unfold three_fields.
  rewrite (sscanf_c_d_d_fields c ws1 neg1 ds1 ws2 neg2 ds2 tail
             Hw1 Hne1 Hd1 Hsep Hw2 Hne2 Hd2 Ht).
  unfold is_key in Hk. now rewrite Hk.
Qed.

Lemma control_line_parsed_witness :
  classify (chars "m 5 -7") 6 = Motion 5 (-7)
  /\ classify (chars "B0 3 trailing") 13 = Button "B" 0 3
  /\ classify (chars "x 1 2") 5 = Unknown.
Proof.
  split; [|split].
  - exact (control_line_parsed "m" (chars " ") false (chars "5")
             (chars " ") true (chars "7") [] 6
             eq_refl eq_refl eq_refl ltac:(discriminate) eq_refl eq_refl
             eq_refl ltac:(discriminate) eq_refl eq_refl).
  - exact (control_line_parsed "B" [] false (chars "0")
             (chars " ") false (chars "3") (chars " trailing") 13
             eq_refl eq_refl eq_refl ltac:(discriminate) eq_refl eq_refl
             eq_refl ltac:(discriminate) eq_refl eq_refl).
  - exact (control_line_parsed "x" (chars " ") false (chars "1")
             (chars " ") false (chars "2") [] 5
             eq_refl eq_refl eq_refl ltac:(discriminate) eq_refl eq_refl
             eq_refl ltac:(discriminate) eq_refl eq_refl).
Defined.

Lemma no_digit_skip_space s : no_digit s = true -> no_digit (skip_space s) = true.
Proof.
  induction s as [|c s IH]; simpl; intros H; [reflexivity|].
  destruct (isspace c); [|exact H].
  apply andb_true_iff in H. now apply IH.
Qed.

Lemma no_digit_no_number s : no_digit s = true -> scan_int s = None.
Proof.
  intros H. unfold scan_int.
  assert (G : forall t, no_digit t = true ->
                match t with
                | c :: _ =>
                    if isdigit c then
                      let '(v, rest) := scan_digits 0 t in
                      Some (C.store_int v, rest)
                    else None
                | [] => (None : option (Z * list ascii))
                end = None).
  { intros [|c t] Ht; [reflexivity|]. simpl in Ht.
    apply andb_true_iff in Ht. destruct Ht as [Hc _].
    apply negb_true_iff in Hc. now rewrite Hc. }
  destruct s as [|c s]; [reflexivity|].
  simpl in H. apply andb_true_iff in H. destruct H as [Hc Hs].
  apply negb_true_iff in Hc.
  destruct (Ascii.eqb c "-") eqn:Em.
  { apply Ascii.eqb_eq in Em. subst c.
    destruct s as [|d s]; [reflexivity|]. simpl in Hs.
    apply andb_true_iff in Hs. destruct Hs as [Hd _].
    apply negb_true_iff in Hd. now rewrite Hd. }
  destruct (Ascii.eqb c "+") eqn:Ep.
  { apply Ascii.eqb_eq in Ep. subst c.
    destruct s as [|d s]; [reflexivity|]. simpl in Hs.
    apply andb_true_iff in Hs. destruct Hs as [Hd _].
    apply negb_true_iff in Hd. now rewrite Hd. }
  apply Ascii.eqb_neq in Em. apply Ascii.eqb_neq in Ep.
  destruct c as [[] [] [] [] [] [] [] []];
    try (now elim Em); try (now elim Ep); now rewrite Hc.
Qed.

Lemma no_digit_sscanf s :
  no_digit s = true -> sscanf_c_d s = None /\ sscanf_c_d_d s = None.
Proof.
  intros H. unfold sscanf_c_d, sscanf_c_d_d, sscanf.
  change (directives (list_ascii_of_string "%c %d"))
    with [Dchar; Dspace; Dint].
  change (directives (list_ascii_of_string "%c %d %d"))
    with [Dchar; Dspace; Dint; Dspace; Dint].
  destruct s as [|c s]; [now split|].
  simpl in H. apply andb_true_iff in H. destruct H as [_ Hs].
  pose proof (no_digit_skip_space _ (no_digit_skip_space _ Hs)) as Hk.
  cbn [scan].
  destruct (skip_space (skip_space s)) as [|d s1] eqn:E; [now split|].
  rewrite (no_digit_no_number _ Hk). now split.
Qed.

(** X3. A line without any digit is a layout command when it starts
    with [l] and has more than two characters, and is rejected as an
    invalid format otherwise, whatever else it holds; so is the empty
    line. *)
Theorem digitless_line_invalid (line : list ascii) (n : nat) :
  no_digit line = true ->
  classify line n =
  if Ascii.eqb (char_at line 0) "l" && (2 <? Z.of_nat n)
  then Layout (skipn 2 line) else Invalid.
Proof.
  intros H. unfold classify.
  destruct (Ascii.eqb (char_at line 0) "l" && (2 <? Z.of_nat n));
    [reflexivity|].
  destruct (no_digit_sscanf line H) as [E2 E3].
  rewrite E2. unfold three_fields. now rewrite E3.
Qed.

Lemma digitless_line_invalid_witness :
  classify (chars "k") 1 = Invalid
  /\ classify (chars "m left up") 9 = Invalid
  /\ classify [] 0 = Invalid
  /\ classify (chars "layout") 6 = Layout (chars "yout").
Proof.
  split; [|split; [|split]].
  - exact (digitless_line_invalid (chars "k") 1 eq_refl).
  - exact (digitless_line_invalid (chars "m left up") 9 eq_refl).
  - exact (digitless_line_invalid [] 0 eq_refl).
  - exact (digitless_line_invalid (chars "layout") 6 eq_refl).
Defined.

(** ** The numbers of a line *)

Lemma to_int_range z : C.in_int (C.to_int z).
Proof.
  unfold C.in_int, C.INT_MIN, C.INT_MAX, C.to_int.
  pose proof (Z.mod_pos_bound (z + 2 ^ 31) (2 ^ 32) ltac:(lia)). lia.
Qed.

Lemma store_int_exact z : C.in_int z -> C.store_int z = z.
Proof.
  intros H. unfold C.store_int, C.strtol.
  assert (E : Z.max C.LONG_MIN (Z.min C.LONG_MAX z) = z).
  { unfold C.in_int, C.INT_MIN, C.INT_MAX, C.LONG_MIN, C.LONG_MAX in *. lia. }
  rewrite E. now apply to_int_id.
Qed.

(** X16. The number the parser reads from a numeral in a key line, and
    hands to the key handler, is always an [int], and it is the number
    the numeral denotes whenever that one is an [int]: digits are read
    in base ten, most significant first, and a minus sign negates. *)
Theorem parsed_number_exact
    (c : ascii) (ws : list ascii) (neg : bool) (ds tail : list ascii)
    (n : nat) (d : ascii) :
  is_key c = true ->
  forallb isspace ws = true ->
  ds <> [] -> forallb isdigit ds = true -> no_digit_head tail = true ->
  (exists v,
      scan_int (numeral neg ds ++ tail) = Some (v, tail)
      /\ classify (c :: ws ++ numeral neg ds ++ tail) n = Key2 c v
      /\ dispatch INJECT_METHOD_XTEST (c :: ws ++ numeral neg ds ++ tail) n
         = xkey c v 0
      /\ dispatch INJECT_METHOD_SENDEVENT (c :: ws ++ numeral neg ds ++ tail) n
         = xkey_sendevent c v 0
      /\ C.in_int v
      /\ (C.in_int (if neg then - digits_value ds else digits_value ds) ->
          v = if neg then - digits_value ds else digits_value ds))
  /\ digits_value [] = 0
  /\ (isdigit d = true ->
      digits_value (ds ++ [d]) = 10 * digits_value ds + (code d - 48)
      /\ 0 <= code d - 48 <= 9).
Proof.
  intros Hk Hw Hne Hd Ht. split; [|split; [reflexivity|]].
  - exists (numeral_value neg ds).
    assert (E : classify (c :: ws ++ numeral neg ds ++ tail) n
                = Key2 c (numeral_value neg ds)).
    { unfold classify.
      change (char_at (c :: ws ++ numeral neg ds ++ tail) 0) with c.
      rewrite (is_key_not_l c Hk). cbn [andb].
      rewrite (sscanf_c_d_fields c ws neg ds tail Hw Hne Hd Ht).
      now rewrite Hk. }
    split; [now apply scan_int_numeral|]. split; [exact E|].
    unfold dispatch. rewrite E.
    split; [reflexivity|]. split; [reflexivity|].
    split; [apply to_int_range | apply store_int_exact].
  - intros Hc. split.
    + unfold digits_value. now rewrite fold_left_app.
    + pose proof (isdigit_code d Hc). lia.
Qed.

Lemma parsed_number_exact_witness :
  exists v,
    scan_int (numeral true (chars "2147483648") ++ chars " x")
    = Some (v, chars " x")
    /\ classify (chars "K -2147483648 x") 15 = Key2 "K" v
    /\ dispatch INJECT_METHOD_XTEST (chars "K -2147483648 x") 15 = xkey "K" v 0
    /\ dispatch INJECT_METHOD_SENDEVENT (chars "K -2147483648 x") 15
       = xkey_sendevent "K" v 0
    /\ C.in_int v
    /\ (C.in_int (- digits_value (chars "2147483648")) ->
        v = - digits_value (chars "2147483648")).
Proof.
  exact (proj1 (parsed_number_exact "K" (chars " ") true (chars "2147483648")
                  (chars " x") 15 "0"
                  eq_refl eq_refl ltac:(discriminate) eq_refl eq_refl)).
Defined.

(** The smallest [int] comes through as it is. *)
Lemma parsed_number_at_the_limit :
  classify (chars "K -2147483648") 13 = Key2 "K" (-2147483648).
Proof. reflexivity. Qed.

(** ** Line ends *)

Lemma fgets_read_no_LF room l rest :
  no_LF l = true -> (List.length l < room)%nat ->
  fgets_read room (l ++ LF :: rest) = Line (l ++ [LF]) rest.
Proof.
  revert room. induction l as [|c l IH]; intros room H Hlen.
  - destruct room; [simpl in Hlen; lia | reflexivity].
  - destruct room; [simpl in Hlen; lia|].
    simpl in H. apply andb_true_iff in H. destruct H as [Hc Hl].
    apply negb_true_iff in Hc.
    simpl. rewrite Hc, (IH room Hl); [reflexivity|].
    simpl in Hlen. lia.
Qed.

Lemma plain_no_LF l : forallb plain l = true -> no_LF l = true.
Proof.
  induction l as [|c l IH]; simpl; intros H; [reflexivity|].
  apply andb_true_iff in H. destruct H as [Hc Hl].
  now rewrite (plain_not_LF c Hc), IH.
Qed.

Lemma fgets_read_full_no_LF l tail :
  no_LF l = true -> fgets_read (List.length l) (l ++ tail) = Line l tail.
Proof.
  induction l as [|c l IH]; simpl; intros H; [reflexivity|].
  apply andb_true_iff in H. destruct H as [Hc Hl].
  apply negb_true_iff in Hc. now rewrite Hc, (IH Hl).
Qed.

Lemma fgets_read_short_no_LF room l :
  no_LF l = true -> (List.length l < room)%nat -> fgets_read room l = Short l.
Proof.
  revert room. induction l as [|c l IH]; intros room H Hlen.
  - destruct room; [simpl in Hlen; lia | reflexivity].
  - destruct room; [simpl in Hlen; lia|].
    simpl in H. apply andb_true_iff in H. destruct H as [Hc Hl].
    apply negb_true_iff in Hc.
    simpl. rewrite Hc, (IH room Hl); [reflexivity|].
    simpl in Hlen. lia.
Qed.

(** The last buffer of a stream that ends cleanly. *)
Lemma fgets_last l :
  no_LF l = true -> l <> [] -> (List.length l <= 63)%nat ->
  fgets 64 l false = Some (l, []).
Proof.
  intros H Hne Hlen. unfold fgets. change (64 - 1)%nat with 63%nat.
  destruct (Nat.eq_dec (List.length l) 63) as [E|E].
  - rewrite <- E. rewrite <- (app_nil_r l) at 2.
    now rewrite fgets_read_full_no_LF.
  - rewrite fgets_read_short_no_LF by (assumption || lia).
    destruct l; [easy | reflexivity].
Qed.

(** A buffer with a carriage return after an ordinary line: the line is
    dispatched, the rest of the buffer is not looked at. *)
Lemma iteration_CR method line junk w :
  forallb plain line = true ->
  iteration method (line ++ CR :: junk) false w =
  bind (dispatch method line (List.length line)) (fun _ => ret false) w.
Proof.
  intros Hp. unfold iteration.
  rewrite (strcspn_plain line _ Hp).
  change (strcspn (CR :: junk) [CR; LF]) with O.
  rewrite Nat.add_0_r. unfold char_at at 1. rewrite nth_middle.
  change (Ascii.eqb CR NUL) with false. cbv iota.
  rewrite firstn_app, firstn_all, Nat.sub_diag. cbn [firstn].
  now rewrite app_nil_r.
Qed.

Lemma main_loop_after_CR method ferror line junk input rest w :
  forallb plain line = true ->
  fgets 64 input ferror = Some ((line ++ CR :: junk)%list, rest) ->
  main_loop method ferror input false w =
  bind (dispatch method line (List.length line))
       (fun _ => main_loop method ferror rest false) w.
Proof.
  intros Hp E. rewrite main_loop_step, E.
  unfold bind at 1. rewrite (iteration_CR _ _ _ _ Hp).
  fold (bind (bind (dispatch method line (List.length line))
                (fun _ => ret false))
             (fun skip' => main_loop method ferror rest skip') w).
  rewrite bind_assoc. unfold bind at 1 3.
  destruct (dispatch method line (List.length line) w) as [t [[] w'| |]];
    try reflexivity.
  now rewrite bind_ret_l.
Qed.

(** X4. A carriage return ends the line.  When the line, the CR, the
    text after it and the newline fit the 63 characters one [fgets]
    reads (line and text together at most 61 characters), the line is
    dispatched alone and the text after the CR is dropped in silence; a
    line followed by CR and LF is the case of no text.  When line and
    text are 62 characters together, so that the newline no longer fits
    the buffer, the line is dispatched as well, but the newline is then
    read as an empty line and rejected with a diagnostic. *)
Theorem carriage_return_ends_line
    (method : inject_method) (ferror : bool)
    (line junk rest : list ascii) (w : world) :
  forallb plain line = true -> no_LF junk = true ->
  ((List.length line + List.length junk <= 61)%nat ->
   main_loop method ferror (line ++ CR :: junk ++ LF :: rest) false w =
   bind (dispatch method line (List.length line))
        (fun _ => main_loop method ferror rest false) w)
  /\ ((List.length line + List.length junk = 62)%nat ->
      main_loop method ferror (line ++ CR :: junk ++ LF :: rest) false w =
      bind (dispatch method line (List.length line))
           (fun _ w' =>
              (Warnx "parse error; invalid or incomplete format"
                 :: fst (main_loop method ferror rest false w'),
               snd (main_loop method ferror rest false w'))) w).
Proof.
  intros Hp Hj.
  assert (Hn : no_LF (line ++ CR :: junk) = true).
  { unfold no_LF. rewrite forallb_app. fold (no_LF line).
    rewrite (plain_no_LF _ Hp). exact Hj. }
  split; intros Hlen.
  - apply (main_loop_after_CR method ferror line (junk ++ [LF])).
    + exact Hp.
    + unfold fgets. change (64 - 1)%nat with 63%nat.
      change (line ++ CR :: junk ++ LF :: rest)%list
        with (line ++ (CR :: junk) ++ LF :: rest)%list.
      rewrite app_assoc, fgets_read_no_LF.
      * now rewrite <- app_assoc.
      * exact Hn.
      * rewrite length_app. simpl. lia.
  - rewrite (main_loop_after_CR method ferror line junk _ (LF :: rest) w Hp).
    + unfold bind.
      destruct (dispatch method line (List.length line) w) as [t [[] w'| |]];
        try reflexivity.
      assert (F : fits []) by (split; [reflexivity | simpl; lia]).
      change (LF :: rest) with ([] ++ LF :: rest)%list.
      rewrite (main_loop_line method ferror [] rest w' F). unfold bind.
      rewrite (dispatch_diagnostic method [] (List.length (@nil ascii))
                 "parse error; invalid or incomplete format" w' eq_refl).
      now destruct (main_loop method ferror rest false w').
    + unfold fgets. change (64 - 1)%nat with 63%nat.
      change (line ++ CR :: junk ++ LF :: rest)%list
        with (line ++ (CR :: junk) ++ LF :: rest)%list.
      rewrite app_assoc.
      replace 63%nat with (List.length (line ++ CR :: junk))
        by (rewrite length_app; simpl; lia).
      now rewrite fgets_read_full_no_LF.
Qed.

Lemma carriage_return_ends_line_witness :
  main_loop INJECT_METHOD_XTEST false
    (chars "k 97" ++ CR :: chars "K 97" ++ LF :: chars "b 0 1" ++ [LF])
    false sample_world
  = bind (dispatch INJECT_METHOD_XTEST (chars "k 97") 4)
      (fun _ => main_loop INJECT_METHOD_XTEST false (chars "b 0 1" ++ [LF]) false)
      sample_world.
Proof.
  apply (proj1 (carriage_return_ends_line INJECT_METHOD_XTEST false
                  (chars "k 97") (chars "K 97") (chars "b 0 1" ++ [LF])
                  sample_world eq_refl eq_refl)).
  simpl. lia.
Defined.

(** A line of 62 characters with CR and LF after it: the key goes
    through, and the newline costs a diagnostic. *)
Lemma carriage_return_at_the_limit :
  fst (main INJECT_METHOD_XTEST
         (chars "k 97" ++ repeat " "%char 58 ++ [CR; LF]) false 0 sample_world)
  = [FakeKeyEvent 38 true 0; Flush;
     Warnx "parse error; invalid or incomplete format"].
Proof. reflexivity. Qed.

(** X5. A last line of ordinary characters that reaches the end of the
    input without a line end is never dispatched, wherever the loop
    stands when it comes to it.  When the input ends cleanly the line
    counts as truncated: one diagnostic (none when the loop is already
    skipping), and [main] returns success, also after a complete line
    that was dispatched.  When the read fails instead, a last line
    shorter than the buffer is lost without a diagnostic of its own and
    [main] fails on the read error.  A carriage return is a line end: a
    last line that ends in CR without a newline is dispatched. *)
Theorem unterminated_last_line
    (method : inject_method) (errno : Z) (first line : list ascii)
    (skip : bool) (w : world) :
  forallb plain line = true -> line <> [] ->
  main_loop method false line skip w =
    (if skip then [] else [Warnx "parse error; truncated input"], Done tt w)
  /\ (fits first ->
      main method (first ++ LF :: line) false errno w =
      bind (dispatch method first (List.length first))
           (fun _ w' =>
              ([Warnx "parse error; truncated input"], Done EXIT_SUCCESS w'))
           w)
  /\ ((List.length line < 63)%nat ->
      main method line true errno w = ([Err 1 "reading stdin"], Exit 1))
  /\ ((List.length line <= 62)%nat ->
      main method (line ++ [CR]) false errno w =
      bind (dispatch method line (List.length line))
           (fun _ w' => ([], Done EXIT_SUCCESS w')) w).
Proof.
  intros Hp Hne. split; [|split; [|split]].
  - now apply main_loop_unterminated_tail.
  - intros Hfit. unfold main. unfold bind at 1.
    rewrite (main_loop_line method false first line w Hfit).
    unfold bind.
    destruct (dispatch method first (List.length first) w)
      as [t [[] w'| |]]; try reflexivity.
    rewrite (main_loop_unterminated_tail method line false w' Hp Hne).
    cbn [negb andb]. unfold ret. now rewrite app_nil_r.
  - intros Hlen. unfold main, bind.
    rewrite main_loop_step. unfold fgets. change (64 - 1)%nat with 63%nat.
    now rewrite (fgets_read_short _ _ Hp Hlen).
  - intros Hlen. unfold main. unfold bind at 1.
    rewrite (main_loop_after_CR method false line [] (line ++ [CR]) [] w Hp).
    + unfold bind.
      destruct (dispatch method line (List.length line) w)
        as [t [[] w'| |]]; try reflexivity.
      rewrite main_loop_end. cbn [negb andb]. unfold ret.
      now rewrite !app_nil_r.
    + apply fgets_last.
      * unfold no_LF. rewrite forallb_app. fold (no_LF line).
        now rewrite (plain_no_LF _ Hp).
      * now destruct line.
      * rewrite length_app. simpl. lia.
Qed.

Lemma unterminated_last_line_witness :
  main_loop INJECT_METHOD_XTEST false (chars "k 97") false sample_world =
    ([Warnx "parse error; truncated input"], Done tt sample_world)
  /\ main INJECT_METHOD_XTEST (chars "k 97") true 0 sample_world =
    ([Err 1 "reading stdin"], Exit 1)
  /\ main INJECT_METHOD_XTEST (chars "k 97" ++ [CR]) false 0 sample_world =
     bind (dispatch INJECT_METHOD_XTEST (chars "k 97") 4)
       (fun _ w' => ([], Done EXIT_SUCCESS w')) sample_world.
Proof.
  pose proof (unterminated_last_line INJECT_METHOD_XTEST 0 [] (chars "k 97")
                false sample_world eq_refl ltac:(discriminate))
    as (H1 & _ & H3 & H4).
  split; [exact H1 | split; [apply H3; simpl; lia | apply H4; simpl; lia]].
Defined.

(** The two last lines side by side. *)
Lemma last_line_with_and_without_CR :
  fst (main INJECT_METHOD_XTEST (chars "b 0 1" ++ LF :: chars "k 97") false 0
         sample_world)
  = [FakeButtonEvent 1 true 0; Flush; Warnx "parse error; truncated input"]
  /\ fst (main INJECT_METHOD_XTEST (chars "b 0 1" ++ LF :: chars "k 97" ++ [CR])
            false 0 sample_world)
  = [FakeButtonEvent 1 true 0; Flush; FakeKeyEvent 38 true 0; Flush].
Proof. split; reflexivity. Qed.



(** ** What a computation calls *)

Lemma fst_bind {A B} (m : M A) (k : A -> M B) (w : world) :
  fst (bind m k w) =
  match m w with
  | (t, Done a w') => (t ++ fst (k a w'))%list
  | (t, _) => t
  end.
Proof.
  unfold bind. destruct (m w) as [t [a w'| |]]; try reflexivity.
  now destruct (k a w').
Qed.

Section Emits.

Variable P : call -> Prop.

Lemma emits_ret {A} (a : A) : emits_only P (ret a).
Proof. intros w. constructor. Qed.

Lemma emits_get : emits_only P get.
Proof. intros w. constructor. Qed.

Lemma emits_put w0 : emits_only P (put w0).
Proof. intros w. constructor. Qed.

Lemma emits_hang {A} : emits_only P (@hang A).
Proof. intros w. constructor. Qed.

Lemma emits_emit c : P c -> emits_only P (emit c).
Proof. intros H w. now repeat constructor. Qed.

Lemma emits_err {A} n msg : P (Err n msg) -> emits_only P (@err A n msg).
Proof. intros H w. now repeat constructor. Qed.

Lemma emits_bind {A B} (m : M A) (k : A -> M B) :
  emits_only P m -> (forall a, emits_only P (k a)) -> emits_only P (bind m k).
Proof.
  intros Hm Hk w. rewrite fst_bind. specialize (Hm w).
  destruct (m w) as [t [a w'| |]]; simpl in *; try assumption.
  apply Forall_app. split; [assumption | apply Hk].
Qed.

Lemma emits_for_each {A} (l : list A) (body : A -> M unit) :
  (forall a, emits_only P (body a)) -> emits_only P (for_each l body).
Proof.
  intros Hb. induction l as [|a l IH]; simpl; [apply emits_ret|].
  apply emits_bind; auto.
Qed.

Hypothesis P_TakeEvent : forall e, P (TakeEvent e).
Hypothesis P_Refresh : P RefreshKeyboardMapping.

Lemma emits_update_mapping e : emits_only P (update_mapping e).
Proof.
  unfold update_mapping. destruct (ev_request e =? X.MappingKeyboard).
  - unfold XRefreshKeyboardMapping.
    apply emits_bind; [now apply emits_emit | intros _].
    apply emits_bind; [apply emits_get | intros w0; apply emits_put].
  - apply emits_ret.
Qed.

Lemma emits_XNextEvent : emits_only P XNextEvent.
Proof.
  unfold XNextEvent. apply emits_bind; [apply emits_get | intros w0].
  destruct (queue (dpy w0)); [apply emits_hang|].
  apply emits_bind; [now apply emits_emit | intros _].
  apply emits_bind; [apply emits_put | intros _; apply emits_ret].
Qed.

Lemma emits_wait_mapping q : emits_only P (wait_mapping q).
Proof.
  induction q as [|e q IH]; simpl; [apply emits_hang|].
  apply emits_bind; [apply emits_XNextEvent | intros e'].
  destruct (ev_type e' =? X.MappingNotify);
    [apply emits_update_mapping | exact IH].
Qed.

Lemma emits_while_XCheckMaskEvent mask :
  emits_only P (while_XCheckMaskEvent mask update_mapping).
Proof.
  unfold while_XCheckMaskEvent.
  apply emits_bind; [apply emits_get | intros w0].
  apply emits_bind; [apply emits_put | intros _].
  apply emits_for_each. intros e.
  apply emits_bind; [now apply emits_emit | intros _].
  apply emits_update_mapping.
Qed.

Hypothesis P_Warnx : forall msg, P (Warnx msg).
Hypothesis P_GrabKey : forall k m g, P (GrabKey k m g).
Hypothesis P_Sync : P Sync.
Hypothesis P_Err_system : P (Err 1 "system").

(** The calls of the layout coordinator: the command is the only one
    that depends on the name. *)
Lemma emits_xkblayout layout :
  (all_alpha layout = true -> P (System (setxkbmap ++ cstring layout))) ->
  emits_only P (xkblayout layout).
Proof.
  intros HS. unfold xkblayout.
  destruct (all_alpha layout); simpl negb; cbv iota;
    [|now apply emits_emit].
  destruct (snprintf_setxkbmap layout >=? 128); [now apply emits_emit|].
  unfold XStringToKeysym, XKeysymToKeycode, RootWindow.
  apply emits_bind;
    [apply emits_bind; [apply emits_get | intros ?; apply emits_ret]
    | intros keysym].
  apply emits_bind;
    [apply emits_bind; [apply emits_get | intros ?; apply emits_ret]
    | intros keycode].
  apply emits_bind;
    [apply emits_bind; [apply emits_get | intros ?; apply emits_ret]
    | intros grab_window].
  apply emits_bind; [now apply emits_emit | intros _].
  apply emits_bind; [now apply emits_emit | intros _].
  apply emits_bind; [apply emits_while_XCheckMaskEvent | intros _].
  apply emits_bind.
  { unfold system. apply emits_bind; [apply emits_emit; now apply HS | intros _].
    apply emits_bind; [apply emits_get | intros w0].
    apply emits_bind; [apply emits_put | intros _; apply emits_ret]. }
  intros status.
  apply emits_bind.
  { destruct (status =? -1); [now apply emits_err | apply emits_ret]. }
  intros _.
  apply emits_bind; [apply emits_get | intros w0].
  apply emits_bind; [apply emits_wait_mapping | intros _].
  apply emits_while_XCheckMaskEvent.
Qed.

End Emits.

Lemma emits_weaken (P Q : call -> Prop) {A} (m : M A) :
  (forall c, P c -> Q c) -> emits_only P m -> emits_only Q m.
Proof. intros H Hm w. eapply Forall_impl; [exact H | apply Hm]. Qed.

(** ** What the loop calls *)

(** A property of traces that holds of the empty trace, of two traces
    put end to end and of every iteration holds of the loop. *)
Lemma main_loop_trace_ind method ferror (Q : list call -> Prop) :
  Q [] -> (forall t1 t2, Q t1 -> Q t2 -> Q (t1 ++ t2)%list) ->
  (forall buf skip w, Q (fst (iteration method buf skip w))) ->
  forall input skip w, Q (fst (main_loop method ferror input skip w)).
Proof.
  intros Hnil Happ Hit input.
  remember (List.length input) as k eqn:Hk. revert input Hk.
  induction k as [k IH] using lt_wf_ind. intros input Hk skip w.
  rewrite main_loop_step.
  destruct (fgets 64 input ferror) as [[buf rest]|] eqn:E; [|exact Hnil].
  rewrite fst_bind. specialize (Hit buf skip w).
  destruct (iteration method buf skip w) as [t [s w'| |]]; simpl in *;
    try assumption.
  apply Happ; [assumption|].
  apply fgets_shorter in E.
  apply (IH (List.length rest)); [lia | reflexivity].
Qed.

Lemma cut_no_NUL buf reject :
  forallb (fun c => negb (Ascii.eqb c NUL)) (firstn (strcspn buf reject) buf)
  = true.
Proof.
  induction buf as [|c buf IH]; [reflexivity|]. simpl.
  destruct (Ascii.eqb c NUL) eqn:E; [reflexivity|]. simpl.
  destruct (existsb (Ascii.eqb c) reject); [reflexivity|].
  simpl. now rewrite E.
Qed.

Lemma cstring_no_NUL s :
  forallb (fun c => negb (Ascii.eqb c NUL)) s = true -> cstring s = s.
Proof.
  induction s as [|c s IH]; [reflexivity|]. simpl. intros H.
  apply andb_true_iff in H. destruct H as [Hc Hs].
  apply negb_true_iff in Hc. rewrite cstring_cons, Hc. now rewrite IH.
Qed.

Lemma forallb_skipn {A} (f : A -> bool) k l :
  forallb f l = true -> forallb f (skipn k l) = true.
Proof.
  revert l. induction k as [|k IH]; intros l H; [exact H|].
  destruct l as [|a l]; [reflexivity|]. simpl in *.
  apply andb_true_iff in H. now apply IH.
Qed.

(** The calls of one line, for the line as the loop cuts it. *)
Lemma dispatch_calls method buf w :
  Forall (loop_call method)
    (fst (dispatch method (firstn (strcspn buf [CR; LF]) buf)
            (strcspn buf [CR; LF]) w)).
Proof.
  set (n := strcspn buf [CR; LF]). set (line := firstn n buf).
  unfold dispatch.
  destruct (classify line n) as [l|c v1| |v1 v2|c v1 v2|c v1 v2|] eqn:E.
  - (* layout *)
    assert (Hl : l = skipn 2 line /\ (2 < n)%nat).
    { unfold classify in E.
      destruct (Ascii.eqb (char_at line 0) "l" && (2 <? Z.of_nat n)) eqn:T.
      - apply andb_true_iff in T. destruct T as [_ T].
        apply Z.ltb_lt in T. inversion E. split; [reflexivity | lia].
      - exfalso. destruct (sscanf_c_d line) as [[c0 v0]|].
        + destruct (is_key c0); [discriminate|].
          now apply three_fields_not_layout in E.
        + now apply three_fields_not_layout in E. }
    destruct Hl as [-> Hn]. cbn [run].
    apply emits_xkblayout;
      [intros; exact I | exact I | intros; exact I | intros; exact I
      | exact I | now split |].
    intros Ha. rewrite all_alpha_cstring in Ha. cbn [loop_call].
    assert (Hc : cstring (skipn 2 line) = skipn 2 line).
    { apply cstring_no_NUL, forallb_skipn. apply cut_no_NUL. }
    rewrite Hc in *. exists (skipn 2 line). split; [reflexivity|].
    split; [|exact Ha].
    intros Hnil. apply (f_equal (@List.length ascii)) in Hnil.
    rewrite length_skipn in Hnil. unfold line, n in Hnil, Hn.
    rewrite iteration_cut in Hnil. simpl in Hnil. lia.
  - (* two-field key *)
    destruct method; cbn [run].
    + rewrite xkey_run. cbv zeta.
      destruct (_ =? 0); simpl; repeat constructor.
    + rewrite xkey_sendevent_run. cbv zeta. unfold targeting.
      destruct (focus_status (dpy w) =? X.False); simpl; repeat constructor.
  - simpl. repeat constructor.
  - cbn [run]. rewrite xmotion_run. unfold seeding.
    destruct (xb_root (xb w) =? X.None); simpl; repeat constructor.
  - simpl. repeat constructor.
  - now apply key3_unreachable in E.
  - simpl. repeat constructor.
Qed.

Lemma iteration_calls method buf skip w :
  Forall (loop_call method) (fst (iteration method buf skip w)).
Proof.
  unfold iteration.
  destruct (Ascii.eqb (char_at buf (strcspn buf [CR; LF])) NUL).
  - destruct skip; simpl; repeat constructor.
  - destruct skip; [constructor|].
    rewrite fst_bind. pose proof (dispatch_calls method buf w) as H.
    destruct (dispatch _ _ _ w) as [t [a w'| |]]; simpl in *;
      try assumption.
    now rewrite app_nil_r.
Qed.

Lemma main_loop_calls method ferror input skip w :
  Forall (loop_call method) (fst (main_loop method ferror input skip w)).
Proof.
  apply (main_loop_trace_ind method ferror (Forall (loop_call method))).
  - constructor.
  - intros t1 t2 H1 H2. apply Forall_app. now split.
  - apply iteration_calls.
Qed.

Lemma main_trace method stdin ferror errno w c :
  In c (fst (main method stdin ferror errno w)) ->
  In c (fst (main_loop method ferror stdin false w))
  \/ (ferror = true /\ c = Err 1 "reading stdin").
Proof.
  unfold main. rewrite fst_bind.
  destruct (main_loop method ferror stdin false w) as [t [a w'| |]];
    simpl; auto.
  intros H. apply in_app_or in H. destruct H as [H|H]; [now left|].
  destruct ferror; simpl in H.
  - destruct H as [H|[]]. now right.
  - destruct H.
Qed.

(** X7. Whatever the input, the only commands the program hands to the
    shell are [setxkbmap], a space and a name made of letters, at least
    one: no character of a line that the shell could interpret ever
    reaches [system]. *)
Theorem shell_command_letters_only
    (method : inject_method) (stdin : list ascii) (ferror : bool) (errno : Z)
    (w : world) (command : list ascii) :
  In (System command) (fst (main method stdin ferror errno w)) ->
  letters_only command.
Proof.
  intros H. apply main_trace in H. destruct H as [H|[_ H]]; [|discriminate].
  pose proof (main_loop_calls method ferror stdin false w) as G.
  rewrite Forall_forall in G. exact (G _ H).
Qed.

Lemma shell_command_letters_only_witness :
  In (System (chars "setxkbmap us"))
    (fst (main INJECT_METHOD_XTEST
            (chars "l us" ++ LF :: chars "l ;reboot" ++ [LF]) false 0
            sample_world))
  /\ letters_only (chars "setxkbmap us").
Proof.
  assert (H : In (System (chars "setxkbmap us"))
                (fst (main INJECT_METHOD_XTEST
                        (chars "l us" ++ LF :: chars "l ;reboot" ++ [LF])
                        false 0 sample_world)))
    by (vm_compute; tauto).
  split; [exact H|].
  exact (shell_command_letters_only INJECT_METHOD_XTEST _ false 0
           sample_world _ H).
Defined.

(** X8. Keys go one way only.  With the replay method the program never
    asks for the input focus and never sends an event to a window; with
    direct delivery it never injects a key through XTEST, not even for a
    line with an explicit keycode. *)
Theorem keys_go_one_way
    (method : inject_method) (stdin : list ascii) (ferror : bool) (errno : Z)
    (w : world) (c : call) :
  In c (fst (main method stdin ferror errno w)) ->
  match c with
  | GetInputFocus | SendEvent _ _ _ _ => method = INJECT_METHOD_SENDEVENT
  | FakeKeyEvent _ _ _ => method = INJECT_METHOD_XTEST
  | _ => True
  end.
Proof.
  intros H. apply main_trace in H. destruct H as [H|[_ ->]]; [|exact I].
  pose proof (main_loop_calls method ferror stdin false w) as G.
  rewrite Forall_forall in G. specialize (G _ H).
  destruct c; try exact I; exact G.
Qed.

Lemma keys_go_one_way_witness :
  In (SendEvent 7 0 1
        {| xkey_type := 2; xkey_window := 7; xkey_subwindow := 7;
           xkey_time := 0; xkey_state := 0; xkey_keycode := 38 |})
    (fst (main INJECT_METHOD_SENDEVENT (chars "k 97 50" ++ [LF]) false 0
            sample_world))
  /\ INJECT_METHOD_SENDEVENT = INJECT_METHOD_SENDEVENT.
Proof.
  assert (H : In (SendEvent 7 0 1
                    {| xkey_type := 2; xkey_window := 7; xkey_subwindow := 7;
                       xkey_time := 0; xkey_state := 0; xkey_keycode := 38 |})
                (fst (main INJECT_METHOD_SENDEVENT (chars "k 97 50" ++ [LF])
                        false 0 sample_world)))
    by (vm_compute; tauto).
  split; [exact H|].
  exact (keys_go_one_way INJECT_METHOD_SENDEVENT _ false 0 sample_world _ H).
Defined.

(** ** Flushing *)

Lemma flushed_app t1 t2 :
  flushed t1 = true -> flushed t2 = true -> flushed (t1 ++ t2) = true.
Proof.
  induction t1 as [|c t1 IH]; intros H1 H2; [exact H2|].
  simpl in H1. apply andb_true_iff in H1. destruct H1 as [Hc H1].
  simpl. rewrite (IH H1 H2), andb_true_r.
  destruct (injects c); [|reflexivity].
  destruct t1 as [|[] t1]; try discriminate. reflexivity.
Qed.

Lemma flushed_no_injection t :
  Forall (fun c => injects c = false) t -> flushed t = true.
Proof.
  induction 1 as [|c t Hc _ IH]; [reflexivity|].
  simpl. now rewrite Hc, IH.
Qed.

Lemma xkblayout_no_injection layout w :
  Forall (fun c => injects c = false) (fst (xkblayout layout w)).
Proof. now apply (emits_xkblayout (fun c => injects c = false)). Qed.

Lemma iteration_flushed method buf skip w :
  flushed (fst (iteration method buf skip w)) = true.
Proof.
  unfold iteration.
  destruct (Ascii.eqb (char_at buf (strcspn buf [CR; LF])) NUL).
  - now destruct skip.
  - destruct skip; [reflexivity|].
    rewrite fst_bind.
    assert (G : flushed (fst (dispatch method
                                (firstn (strcspn buf [CR; LF]) buf)
                                (strcspn buf [CR; LF]) w)) = true).
    { unfold dispatch. destruct (classify _ _) as [l|c v1| |v1 v2|c v1 v2|c v1 v2|].
      - apply flushed_no_injection, xkblayout_no_injection.
      - destruct method; cbn [run].
        + rewrite xkey_run. cbv zeta. now destruct (_ =? 0).
        + rewrite xkey_sendevent_run. cbv zeta. unfold targeting.
          now destruct (focus_status (dpy w) =? X.False).
      - reflexivity.
      - cbn [run]. rewrite xmotion_run. unfold seeding.
        now destruct (xb_root (xb w) =? X.None).
      - reflexivity.
      - cbn [run]. rewrite xkey_run. cbv zeta. now destruct (_ =? 0).
      - reflexivity. }
    destruct (dispatch _ _ _ w) as [t [a w'| |]]; simpl in *; try assumption.
    now rewrite app_nil_r.
Qed.

(** X9. Every event the program injects, by XTEST or by sending it to a
    window, is followed at once by a flush of the connection, for every
    input and both methods; the layout coordinator injects nothing. *)
Theorem injections_flushed
    (method : inject_method) (stdin : list ascii) (ferror : bool) (errno : Z)
    (layout : list ascii) (w : world) :
  flushed (fst (main method stdin ferror errno w)) = true
  /\ Forall (fun c => injects c = false) (fst (xkblayout layout w)).
Proof.
  split; [|apply xkblayout_no_injection].
  unfold main. rewrite fst_bind.
  pose proof (main_loop_trace_ind method ferror
                (fun t => flushed t = true) eq_refl flushed_app
                (iteration_flushed method) stdin false w) as G.
  destruct (main_loop method ferror stdin false w) as [t [a w'| |]];
    simpl in *; try assumption.
  apply flushed_app; [assumption|]. now destruct ferror.
Qed.

(** ** How the program ends *)

Lemma fails_by_system_bind {A B} (m : M A) (k : A -> M B) :
  fails_by_system m -> (forall a, fails_by_system (k a)) ->
  fails_by_system (bind m k).
Proof.
  intros Hm Hk w t n H. unfold bind in H.
  destruct (m w) as [t1 [a w1| |]] eqn:E.
  - destruct (k a w1) as [t2 o] eqn:E2. inversion H; subst.
    destruct (Hk a w1 t2 n E2) as (-> & t' & ->).
    split; [reflexivity|]. exists (t1 ++ t')%list. now rewrite app_assoc.
  - inversion H; subst. now apply (Hm w).
  - discriminate.
Qed.

Lemma fails_by_system_pure {A} (m : M A) :
  (forall w, exists t a w', m w = (t, Done a w')) -> fails_by_system m.
Proof.
  intros Hm w t n H. destruct (Hm w) as (t0 & a & w' & E).
  rewrite E in H. discriminate.
Qed.

Lemma fails_by_system_hang {A} : fails_by_system (@hang A).
Proof. intros w t n H. discriminate. Qed.

Lemma fails_by_system_err {A} : fails_by_system (@err A 1 "system").
Proof.
  intros w t n H. inversion H; subst. split; [reflexivity|]. now exists [].
Qed.

Ltac pure_step := intros ?; do 3 eexists; reflexivity.

Lemma fails_by_system_update_mapping e : fails_by_system (update_mapping e).
Proof.
  apply fails_by_system_pure. intros w. unfold update_mapping.
  destruct (ev_request e =? X.MappingKeyboard); do 3 eexists; reflexivity.
Qed.

Lemma fails_by_system_for_each {A} (l : list A) (body : A -> M unit) :
  (forall a, fails_by_system (body a)) -> fails_by_system (for_each l body).
Proof.
  intros Hb. induction l as [|a l IH]; simpl.
  - apply fails_by_system_pure. pure_step.
  - apply fails_by_system_bind; auto.
Qed.

Lemma fails_by_system_while mask :
  fails_by_system (while_XCheckMaskEvent mask update_mapping).
Proof.
  unfold while_XCheckMaskEvent.
  apply fails_by_system_bind; [apply fails_by_system_pure; pure_step | intros w0].
  apply fails_by_system_bind; [apply fails_by_system_pure; pure_step | intros _].
  apply fails_by_system_for_each. intros e.
  apply fails_by_system_bind; [apply fails_by_system_pure; pure_step | intros _].
  apply fails_by_system_update_mapping.
Qed.

Lemma fails_by_system_XNextEvent : fails_by_system XNextEvent.
Proof.
  intros w t n H. unfold XNextEvent, bind, get in H.
  destruct (queue (dpy w)); discriminate.
Qed.

Lemma fails_by_system_wait_mapping q : fails_by_system (wait_mapping q).
Proof.
  induction q as [|e q IH]; simpl; [apply fails_by_system_hang|].
  apply fails_by_system_bind; [apply fails_by_system_XNextEvent | intros e'].
  destruct (ev_type e' =? X.MappingNotify);
    [apply fails_by_system_update_mapping | exact IH].
Qed.

Lemma fails_by_system_xkblayout layout : fails_by_system (xkblayout layout).
Proof.
  unfold xkblayout.
  destruct (negb (all_alpha layout));
    [apply fails_by_system_pure; pure_step|].
  destruct (snprintf_setxkbmap layout >=? 128);
    [apply fails_by_system_pure; pure_step|].
  apply fails_by_system_bind; [apply fails_by_system_pure; pure_step | intros ?].
  apply fails_by_system_bind; [apply fails_by_system_pure; pure_step | intros ?].
  apply fails_by_system_bind; [apply fails_by_system_pure; pure_step | intros ?].
  apply fails_by_system_bind; [apply fails_by_system_pure; pure_step | intros ?].
  apply fails_by_system_bind; [apply fails_by_system_pure; pure_step | intros ?].
  apply fails_by_system_bind; [apply fails_by_system_while | intros ?].
  apply fails_by_system_bind; [apply fails_by_system_pure; pure_step | intros status].
  apply fails_by_system_bind.
  { destruct (status =? -1);
      [apply fails_by_system_err | apply fails_by_system_pure; pure_step]. }
  intros _.
  apply fails_by_system_bind; [apply fails_by_system_pure; pure_step | intros w0].
  apply fails_by_system_bind;
    [apply fails_by_system_wait_mapping | intros _; apply fails_by_system_while].
Qed.

Lemma fails_by_system_run method b : fails_by_system (run method b).
Proof.
  destruct b; cbn [run].
  - apply fails_by_system_xkblayout.
  - destruct method; apply fails_by_system_pure; intros w.
    + rewrite xkey_run. cbv zeta. destruct (_ =? 0); do 3 eexists; reflexivity.
    + rewrite xkey_sendevent_run. do 3 eexists; reflexivity.
  - apply fails_by_system_pure; pure_step.
  - apply fails_by_system_pure; intros w. rewrite xmotion_run.
    do 3 eexists; reflexivity.
  - apply fails_by_system_pure; pure_step.
  - apply fails_by_system_pure; intros w.
    rewrite xkey_run. cbv zeta. destruct (_ =? 0); do 3 eexists; reflexivity.
  - apply fails_by_system_pure; pure_step.
Qed.

Lemma fails_by_system_iteration method buf skip :
  fails_by_system (iteration method buf skip).
Proof.
  unfold iteration.
  destruct (Ascii.eqb (char_at buf (strcspn buf [CR; LF])) NUL).
  - apply fails_by_system_pure. intros w. destruct skip; do 3 eexists; reflexivity.
  - destruct skip; [apply fails_by_system_pure; pure_step|].
    apply fails_by_system_bind; [apply fails_by_system_run | intros _].
    apply fails_by_system_pure; pure_step.
Qed.

Lemma fails_by_system_main_loop method ferror input skip :
  fails_by_system (fun w => main_loop method ferror input skip w).
Proof.
  remember (List.length input) as k eqn:Hk. revert input skip Hk.
  induction k as [k IH] using lt_wf_ind. intros input skip Hk w t n.
  rewrite main_loop_step.
  destruct (fgets 64 input ferror) as [[buf rest]|] eqn:E; [|discriminate].
  apply fgets_shorter in E.
  apply (fails_by_system_bind (iteration method buf skip)
           (fun skip' w' => main_loop method ferror rest skip' w')).
  - apply fails_by_system_iteration.
  - intros s. apply (IH (List.length rest)); [lia | reflexivity].
Qed.

(** How [main] ends from the loop on. *)
Lemma main_ends method stdin ferror errno w t :
  (forall n,
     main method stdin ferror errno w = (t, Exit n) ->
     n = 1 /\
     ((ferror = true /\ exists t', t = (t' ++ [Err 1 "reading stdin"])%list)
      \/ exists t', t = (t' ++ [Err 1 "system"])%list))
  /\ (forall status w',
        main method stdin ferror errno w = (t, Done status w') ->
        status = EXIT_SUCCESS /\ ferror = false).
Proof.
  unfold main, bind.
  destruct (main_loop method ferror stdin false w) as [t1 [[] w1| |]] eqn:E.
  - destruct ferror; simpl; split; intros; try discriminate.
    + match goal with H : _ = (t, Exit _) |- _ => inversion H; subst end.
      split; [reflexivity|]. left. split; [reflexivity|]. now exists t1.
    + match goal with H : _ = (t, Done _ _) |- _ => inversion H; subst end.
      now split.
  - split; intros; try discriminate.
    match goal with H : _ = (t, Exit _) |- _ => inversion H; subst end.
    destruct (fails_by_system_main_loop method ferror stdin false w _ _ E)
      as (-> & t' & ->).
    split; [reflexivity|]. right. now exists t'.
  - split; intros; discriminate.
Qed.

Lemma startup_stopped e status message :
  startup e = Stopped status message ->
  status = 1 /\ In message startup_messages.
Proof.
  unfold startup, startup_messages.
  repeat match goal with
         | |- context [if ?b then _ else _] => destruct b
         | |- context [match ?o with Some _ => _ | None => _ end] => destruct o
         end;
    intros H; inversion H; subst; (split; [reflexivity|]); simpl; tauto.
Qed.

(** X10. Every failure that xin.c itself produces ends the process with
    status 1 and a message.  Before the loop there are seven: six
    [err]/[errx] exits ([getenv], the two for a connection that fails,
    the two for the XKB extension, the one for a missing XTEST) and the
    [return 1] of [main] after the usage message.  From the loop on
    there are two, each with its report as the last call:
    [err(1, "reading stdin")] when the read failed, after all the lines
    read were handled, and [err(1, "system")] when the layout command
    could not be started.  When [main] returns from its last line, it
    returns success and the input ended cleanly.  (The [pledge] calls of
    an OpenBSD build and the exits that Xlib takes by itself on a
    protocol or connection error are not part of the model.) *)
Theorem failures_are_reported
    (e : environment) (stdin : list ascii) (ferror : bool) (errno : Z) :
  match xin e stdin ferror errno with
  | inl message =>
      startup e = Stopped 1 message /\ In message startup_messages
  | inr (t, Exit n) =>
      n = 1
      /\ (exists method d, startup e = Ready method d)
      /\ ((ferror = true
           /\ exists t', t = (t' ++ [Err 1 "reading stdin"])%list)
          \/ exists t', t = (t' ++ [Err 1 "system"])%list)
  | inr (t, Done status _) =>
      status = EXIT_SUCCESS /\ ferror = false
      /\ exists method d, startup e = Ready method d
  | inr (_, Blocked) => True
  end.
Proof.
  unfold xin. destruct (startup e) as [method d|status message] eqn:E.
  - destruct (main method stdin ferror errno (start d)) as [t [status w'|n|]]
      eqn:Em; [| |exact I].
    + destruct (proj2 (main_ends method stdin ferror errno (start d) t)
                  status w' Em) as [H1 H2].
      repeat split; try assumption. now exists method, d.
    + destruct (proj1 (main_ends method stdin ferror errno (start d) t) n Em)
        as [H1 H2].
      repeat split; try assumption. now exists method, d.
  - destruct (startup_stopped e status message E) as [-> H]. now split.
Qed.

(** The failures, one by one: a start that stops, on an option that is
    not [-s] and on a server without XTEST; a layout command that could
    not be started; a read that failed after a line was handled. *)
Lemma failures_one_by_one :
  xin wrong_option [] false 0
  = inl "Usage: %s [-s]"%string
  /\ xin no_option [] false 0
     = inl "XTEST not available; try %s -s"%string
  /\ main INJECT_METHOD_XTEST (chars "l us" ++ [LF]) false 0 no_fork
     = ([GrabKey 0 0 1; Sync; System (chars "setxkbmap us"); Err 1 "system"],
        Exit 1)
  /\ main INJECT_METHOD_XTEST (chars "b 0 1" ++ LF :: chars "k 97") true 0
       sample_world
     = ([FakeButtonEvent 1 true 0; Flush; Err 1 "reading stdin"], Exit 1).
Proof. repeat split. Qed.

(** ** What the handlers leave alone, in general *)

Section Stable.

Context {X : Type} (f : world -> X).

Hypothesis f_queue :
  forall q w, f (set_dpy (set_queue q (dpy w)) w) = f w.
Hypothesis f_mapping :
  forall k w, f (set_dpy (set_mapping k (dpy w)) w) = f w.
Hypothesis f_system :
  forall q k w,
    f (set_dpy (set_queue q (set_server_mapping k (dpy w))) w) = f w.

Lemma stable_bind {A B} (m : M A) (k : A -> M B) :
  stable f m -> (forall a, stable f (k a)) -> stable f (bind m k).
Proof.
  intros Hm Hk w t b w' H. unfold bind in H.
  destruct (m w) as [t1 [a w1| |]] eqn:E; try discriminate.
  destruct (k a w1) as [t2 o] eqn:E2. inversion H; subst.
  rewrite (Hk a w1 t2 b w' E2). now apply (Hm w t1 a).
Qed.

Lemma stable_same {A} (m : M A) :
  (forall w t a w', m w = (t, Done a w') -> w' = w) -> stable f m.
Proof. intros Hm w t a w' H. now rewrite (Hm w t a w' H). Qed.

Lemma stable_update_mapping e : stable f (update_mapping e).
Proof.
  intros w t a w' H. unfold update_mapping in H.
  destruct (ev_request e =? X.MappingKeyboard); inversion H; subst;
    [apply f_mapping | reflexivity].
Qed.

Lemma stable_for_each {A} (l : list A) (body : A -> M unit) :
  (forall a, stable f (body a)) -> stable f (for_each l body).
Proof.
  intros Hb. induction l as [|x l IH]; simpl.
  - apply stable_same. intros w t a w' H. now inversion H.
  - apply stable_bind; auto.
Qed.

Lemma stable_while mask : stable f (while_XCheckMaskEvent mask update_mapping).
Proof.
  intros w t a w' H.
  assert (E : while_XCheckMaskEvent mask update_mapping w =
              for_each (filter (selects mask) (queue (dpy w)))
                (fun e => emit (TakeEvent e) ;; update_mapping e)
                (set_dpy (set_queue
                            (filter (fun e => negb (selects mask e))
                               (queue (dpy w))) (dpy w)) w)).
  { unfold while_XCheckMaskEvent, bind at 1 2, get, put.
    now destruct (for_each _ _ _). }
  rewrite E in H.
  apply (stable_for_each _ (fun e => emit (TakeEvent e) ;; update_mapping e))
    in H.
  - now rewrite H, f_queue.
  - intros e. apply stable_bind; [|intros _; apply stable_update_mapping].
    apply stable_same. intros w0 t0 a0 w0' H0. now inversion H0.
Qed.

Lemma stable_XNextEvent : stable f XNextEvent.
Proof.
  intros w t a w' H. unfold XNextEvent, bind, get in H.
  destruct (queue (dpy w)); inversion H; subst. apply f_queue.
Qed.

Lemma stable_wait_mapping q : stable f (wait_mapping q).
Proof.
  induction q as [|e q IH]; simpl.
  - intros w t a w' H. discriminate.
  - apply stable_bind; [apply stable_XNextEvent | intros e'].
    destruct (ev_type e' =? X.MappingNotify);
      [apply stable_update_mapping | exact IH].
Qed.

Lemma stable_system s : stable f (system s).
Proof. intros w t a w' H. inversion H; subst. apply f_system. Qed.

Ltac same_step :=
  apply stable_same; let H := fresh "H" in intros ? ? ? ? H; now inversion H.

Lemma stable_xkblayout layout : stable f (xkblayout layout).
Proof.
  unfold xkblayout.
  destruct (negb (all_alpha layout)); [same_step|].
  destruct (snprintf_setxkbmap layout >=? 128); [same_step|].
  apply stable_bind; [same_step | intros ?].
  apply stable_bind; [same_step | intros ?].
  apply stable_bind; [same_step | intros ?].
  apply stable_bind; [same_step | intros ?].
  apply stable_bind; [same_step | intros ?].
  apply stable_bind; [apply stable_while | intros ?].
  apply stable_bind; [apply stable_system | intros status].
  apply stable_bind; [destruct (status =? -1); same_step | intros _].
  apply stable_bind; [same_step | intros w0].
  apply stable_bind; [apply stable_wait_mapping | intros _; apply stable_while].
Qed.

(** The loop leaves alone what every iteration leaves alone. *)
Lemma stable_main_loop method ferror :
  (forall buf skip, stable f (iteration method buf skip)) ->
  forall input skip, stable f (fun w => main_loop method ferror input skip w).
Proof.
  intros Hit input.
  remember (List.length input) as k eqn:Hk. revert input Hk.
  induction k as [k IH] using lt_wf_ind. intros input Hk skip w t a w'.
  rewrite main_loop_step.
  destruct (fgets 64 input ferror) as [[buf rest]|] eqn:E.
  - apply fgets_shorter in E.
    apply (stable_bind (iteration method buf skip)
             (fun skip' w0 => main_loop method ferror rest skip' w0)).
    + apply Hit.
    + intros s. apply (IH (List.length rest)); [lia | reflexivity].
  - intros H. now inversion H.
Qed.

End Stable.

(** ** The modifier bitmask *)

Lemma stable_modifiers_run method b :
  (method = INJECT_METHOD_XTEST \/ forall c v, b <> Key2 c v) ->
  stable modifiers (run method b).
Proof.
  intros Hb. destruct b; cbn [run].
  - now apply stable_xkblayout.
  - destruct method.
    + intros w t a w' H. rewrite xkey_run in H. cbv zeta in H.
      destruct (_ =? 0) in H; now inversion H.
    + destruct Hb as [Hb|Hb]; [discriminate | now elim (Hb c v1)].
  - intros w t a w' H. now inversion H.
  - intros w t a w' H. rewrite xmotion_run in H. now inversion H.
  - intros w t a w' H. now inversion H.
  - intros w t a w' H. rewrite xkey_run in H. cbv zeta in H.
    destruct (_ =? 0) in H; now inversion H.
  - intros w t a w' H. now inversion H.
Qed.

Lemma stable_modifiers_iteration buf skip :
  stable modifiers (iteration INJECT_METHOD_XTEST buf skip).
Proof.
  unfold iteration.
  destruct (Ascii.eqb (char_at buf (strcspn buf [CR; LF])) NUL).
  - intros w t a w' H. destruct skip; now inversion H.
  - destruct skip; [intros w t a w' H; now inversion H|].
    apply stable_bind; [apply stable_modifiers_run; now left | intros _].
    intros w t a w' H. now inversion H.
Qed.

(** [%c] stores the first character of the line. *)
Lemma sscanf_c_d_first buf c v :
  sscanf_c_d buf = Some (c, v) -> c = char_at buf 0.
Proof.
  unfold sscanf_c_d, sscanf.
  change (directives (list_ascii_of_string "%c %d"))
    with [Dchar; Dspace; Dint].
  destruct buf as [|a s]; [discriminate|].
  cbn [scan].
  destruct (skip_space (skip_space s)) as [|a0 l]; [discriminate|].
  destruct (scan_int (a0 :: l)) as [[v0 s2]|]; [|discriminate].
  intros H. now inversion H.
Qed.

(** The two-field key path takes the lines that start with [k] or [K]
    and a number, and no others. *)
Lemma classify_Key2 buf n c v :
  classify buf n = Key2 c v ->
  is_key (char_at buf 0) = true /\ sscanf_c_d buf = Some (c, v).
Proof.
  unfold classify.
  destruct (Ascii.eqb (char_at buf 0) "l" && (2 <? Z.of_nat n));
    [discriminate|].
  assert (T : three_fields buf <> Key2 c v).
  { unfold three_fields. destruct (sscanf_c_d_d buf) as [[[c3 v1] v2]|];
      [|discriminate].
    destruct (Ascii.eqb c3 "m"); [discriminate|].
    destruct (Ascii.eqb c3 "b" || Ascii.eqb c3 "B"); [discriminate|].
    destruct (Ascii.eqb c3 "k" || Ascii.eqb c3 "K"); discriminate. }
  destruct (sscanf_c_d buf) as [[c0 v0]|] eqn:E; [|now intros H].
  destruct (is_key c0) eqn:K; [|now intros H].
  intros H. inversion H; subst.
  now rewrite <- (sscanf_c_d_first buf c v E).
Qed.

(** X11. The modifier bitmask belongs to the direct-delivery key path.
    With either method a line leaves it as it was unless the line starts
    with [k] or [K] and a number: such a line is taken by the two-field
    key test whatever follows the number, a third field included, and
    with direct delivery it updates the bitmask.  With the replay method
    no line at all changes it, so that it is at the end of the loop what
    it was at the start. *)
Theorem modifiers_only_direct_delivery
    (method : inject_method) (ferror : bool) (buf input : list ascii)
    (n : nat) (skip : bool) (w : world) (t : list call) (w' : world) :
  (is_key (char_at buf 0) = false \/ sscanf_c_d buf = None ->
   dispatch method buf n w = (t, Done tt w') -> modifiers w' = modifiers w)
  /\ (main_loop INJECT_METHOD_XTEST ferror input skip w = (t, Done tt w') ->
      modifiers w' = modifiers w).
Proof.
  split.
  - intros Hb H.
    assert (Hc : forall c v, classify buf n <> Key2 c v).
    { intros c v E. destruct (classify_Key2 buf n c v E) as [K S].
      destruct Hb as [Hb|Hb]; congruence. }
    apply (stable_modifiers_run method (classify buf n) (or_intror Hc)
             w t tt w' H).
  - intros H.
    apply (stable_main_loop modifiers INJECT_METHOD_XTEST ferror
             stable_modifiers_iteration input skip w t tt w' H).
Qed.

Lemma modifiers_only_direct_delivery_witness :
  (dispatch INJECT_METHOD_SENDEVENT (chars "B 65505 50") 10 shift_held
   = ([FakeButtonEvent 50 false 0; Flush], Done tt shift_held)
   /\ modifiers shift_held = modifiers shift_held)
  /\ main_loop INJECT_METHOD_XTEST false
       (chars "k 65505" ++ LF :: chars "m 1 1" ++ [LF]) false shift_held
     = ([FakeKeyEvent 50 true 0; Flush; QueryPointer;
         FakeMotionEvent 0 99 99 0; Flush],
        Done tt
          (set_xb {| xb_root := 1; x_root := 99; y_root := 99 |} shift_held))
  /\ modifiers
       (set_xb {| xb_root := 1; x_root := 99; y_root := 99 |} shift_held)
     = modifiers shift_held.
Proof.
  split; [split; [reflexivity|] | split; [reflexivity|]].
  - exact (proj1 (modifiers_only_direct_delivery INJECT_METHOD_SENDEVENT false
                    (chars "B 65505 50") [] 10 false shift_held _ _)
             (or_introl eq_refl) eq_refl).
  - exact (proj2 (modifiers_only_direct_delivery INJECT_METHOD_XTEST false []
                    (chars "k 65505" ++ LF :: chars "m 1 1" ++ [LF]) 0 false
                    shift_held _ _) eq_refl).
Defined.

(** A key line with a third field is a two-field key line to the loop:
    with direct delivery it sets the bit of the modifier it names. *)
Lemma three_field_key_sets_modifier :
  classify (chars "k 65505 50") 10 = Key2 "k" 65505
  /\ modifiers sample_world = 0
  /\ exists t w',
       dispatch INJECT_METHOD_SENDEVENT (chars "k 65505 50") 10 sample_world
       = (t, Done tt w')
       /\ modifiers w' = 1.
Proof.
  split; [reflexivity | split; [reflexivity|]].
  do 2 eexists. split; reflexivity.
Qed.

(** ** Seeding the pointer *)

Lemma filter_none {A} (p : A -> bool) l :
  Forall (fun a => p a = false) l -> filter p l = [].
Proof.
  induction 1 as [|a l Ha _ IH]; [reflexivity|]. simpl. now rewrite Ha.
Qed.

Lemma run_no_query method b w :
  (forall v1 v2, b <> Motion v1 v2) ->
  Forall (fun c => is_query c = false) (fst (run method b w)).
Proof.
  intros Hb. destruct b; cbn [run].
  - now apply (emits_xkblayout (fun c => is_query c = false)).
  - destruct method.
    + rewrite xkey_run. cbv zeta. destruct (_ =? 0); simpl; repeat constructor.
    + rewrite xkey_sendevent_run. cbv zeta. unfold targeting.
      destruct (focus_status (dpy w) =? X.False); simpl; repeat constructor.
  - repeat constructor.
  - now elim (Hb v1 v2).
  - repeat constructor.
  - rewrite xkey_run. cbv zeta. destruct (_ =? 0); simpl; repeat constructor.
  - repeat constructor.
Qed.

Lemma stable_pointer_root_run method b :
  stable (fun w => pointer_root (dpy w)) (run method b).
Proof.
  destruct b; cbn [run].
  - now apply stable_xkblayout.
  - destruct method; intros w t a w' H.
    + rewrite xkey_run in H. cbv zeta in H.
      destruct (_ =? 0) in H; now inversion H.
    + rewrite xkey_sendevent_run in H. now inversion H.
  - intros w t a w' H. now inversion H.
  - intros w t a w' H. rewrite xmotion_run in H. now inversion H.
  - intros w t a w' H. now inversion H.
  - intros w t a w' H. rewrite xkey_run in H. cbv zeta in H.
    destruct (_ =? 0) in H; now inversion H.
  - intros w t a w' H. now inversion H.
Qed.

(** What a line costs in pointer queries, and what it leaves to come. *)
Lemma run_queries method b w :
  pointer_root (dpy w) <> X.None ->
  (List.length (filter is_query (fst (run method b w)))
   + match snd (run method b w) with
     | Done _ w' => queries_left w'
     | _ => 0
     end <= queries_left w)%nat.
Proof.
  intros Hroot.
  assert (Hother : (forall v1 v2, b <> Motion v1 v2) ->
            (List.length (filter is_query (fst (run method b w)))
             + match snd (run method b w) with
               | Done _ w' => queries_left w'
               | _ => 0
               end <= queries_left w)%nat).
  { intros Hb. rewrite (filter_none _ _ (run_no_query method b w Hb)).
    destruct (run method b w) as [t [a w'| |]] eqn:R; simpl; try lia.
    apply (keeps_run method b Hb) in R. destruct R as [R _].
    unfold queries_left. rewrite R. lia. }
  destruct b; try (apply Hother; discriminate).
  cbn [run]. rewrite xmotion_run. unfold seeding, queries_left. simpl.
  destruct (xb_root (xb w) =? X.None) eqn:E; simpl.
  - apply Z.eqb_neq in Hroot. rewrite Hroot. simpl. lia.
  - rewrite E. simpl. lia.
Qed.

Lemma iteration_queries method buf skip w :
  pointer_root (dpy w) <> X.None ->
  (List.length (filter is_query (fst (iteration method buf skip w)))
   + match snd (iteration method buf skip w) with
     | Done _ w' => queries_left w'
     | _ => 0
     end <= queries_left w)%nat
  /\ match snd (iteration method buf skip w) with
     | Done _ w' => pointer_root (dpy w') = pointer_root (dpy w)
     | _ => True
     end.
Proof.
  intros Hroot. unfold iteration.
  destruct (Ascii.eqb (char_at buf (strcspn buf [CR; LF])) NUL).
  - destruct skip; simpl; split; (lia || reflexivity).
  - destruct skip; [simpl; split; (lia || reflexivity)|].
    unfold dispatch.
    pose proof (run_queries method
                  (classify (firstn (strcspn buf [CR; LF]) buf)
                     (strcspn buf [CR; LF])) w Hroot) as Q.
    pose proof (stable_pointer_root_run method
                  (classify (firstn (strcspn buf [CR; LF]) buf)
                     (strcspn buf [CR; LF])) w) as S.
    unfold bind.
    destruct (run method _ w) as [t [a w'| |]]; simpl in *.
    + rewrite app_nil_r. split; [exact Q | exact (S t a w' eq_refl)].
    + split; [lia | exact I].
    + split; [lia | exact I].
Qed.

Lemma main_loop_queries method ferror input skip w :
  pointer_root (dpy w) <> X.None ->
  (List.length (filter is_query (fst (main_loop method ferror input skip w)))
   <= queries_left w)%nat.
Proof.
  remember (List.length input) as k eqn:Hk. revert input skip w Hk.
  induction k as [k IH] using lt_wf_ind. intros input skip w Hk Hroot.
  rewrite main_loop_step.
  destruct (fgets 64 input ferror) as [[buf rest]|] eqn:E; [|simpl; lia].
  apply fgets_shorter in E. rewrite fst_bind.
  destruct (iteration_queries method buf skip w Hroot) as [Q R].
  destruct (iteration method buf skip w) as [t [s w'| |]]; simpl in *;
    try lia.
  rewrite filter_app, length_app.
  assert (Hroot' : pointer_root (dpy w') <> X.None) by now rewrite R.
  pose proof (IH (List.length rest) ltac:(lia) rest s w' eq_refl Hroot'). lia.
Qed.

(** X12. The pointer is asked for at most once: as long as the server
    names a root window in its answer, a whole run holds at most one
    pointer query, and none when the pointer record is seeded at the
    start, however many motion commands and layout changes it has. *)
Theorem pointer_queried_once
    (method : inject_method) (stdin : list ascii) (ferror : bool) (errno : Z)
    (w : world) :
  pointer_root (dpy w) <> X.None ->
  (List.length (filter is_query (fst (main method stdin ferror errno w))) <= 1)%nat
  /\ (xb_root (xb w) <> X.None ->
      filter is_query (fst (main method stdin ferror errno w)) = []).
Proof.
  intros Hroot.
  assert (E : filter is_query (fst (main method stdin ferror errno w))
              = filter is_query (fst (main_loop method ferror stdin false w))).
  { unfold main. rewrite fst_bind.
    destruct (main_loop method ferror stdin false w) as [t [a w'| |]];
      try reflexivity.
    rewrite filter_app. destruct ferror; simpl; now rewrite app_nil_r. }
  rewrite E.
  pose proof (main_loop_queries method ferror stdin false w Hroot) as Q.
  unfold queries_left in Q. split.
  - destruct (xb_root (xb w) =? X.None); lia.
  - intros Hs. apply Z.eqb_neq in Hs. rewrite Hs in Q.
    clear E.
    destruct (filter is_query (fst (main_loop method ferror stdin false w)));
      [reflexivity | simpl in Q; lia].
Qed.

Lemma pointer_queried_once_witness :
  pointer_root (dpy sample_world) <> X.None
  /\ (List.length
        (filter is_query
           (fst (main INJECT_METHOD_XTEST
                   (chars "m 5 5" ++ LF :: chars "l us" ++ LF
                      :: chars "m 5 5" ++ [LF])
                   false 0 sample_world))) <= 1)%nat.
Proof.
  assert (H : pointer_root (dpy sample_world) <> X.None) by discriminate.
  split; [exact H|].
  exact (proj1 (pointer_queried_once INJECT_METHOD_XTEST _ false 0
                  sample_world H)).
Defined.

(** ** How a layout switch ends *)

Lemma snd_bind_done {A B} (m : M A) (k : A -> M B) w t a w' :
  m w = (t, Done a w') -> snd (bind m k w) = snd (k a w').
Proof. intros E. unfold bind. rewrite E. now destruct (k a w'). Qed.

Lemma mapping_notify_not_selected e :
  is_mapping_notify e = true -> selects X.MappingNotify e = false.
Proof.
  unfold is_mapping_notify, selects, event_mask. intros H.
  apply Z.eqb_eq in H. now rewrite H.
Qed.

Lemma existsb_filter_kept {A} (p q : A -> bool) l :
  (forall a, p a = true -> q a = true) ->
  existsb p (filter q l) = existsb p l.
Proof.
  intros H. induction l as [|a l IH]; [reflexivity|]. simpl.
  destruct (q a) eqn:Q; simpl; rewrite IH; [reflexivity|].
  destruct (p a) eqn:Pa; [|reflexivity].
  rewrite (H a Pa) in Q. discriminate.
Qed.

(** The server side of the world, which refreshing the mapping leaves
    alone. *)
Lemma update_mapping_returns e w :
  exists t w',
    update_mapping e w = (t, Done tt w')
    /\ queue (dpy w') = queue (dpy w)
    /\ system_status (dpy w') = system_status (dpy w)
    /\ system_events (dpy w') = system_events (dpy w).
Proof.
  unfold update_mapping.
  destruct (ev_request e =? X.MappingKeyboard);
    do 2 eexists; (split; [reflexivity|]); now repeat split.
Qed.

Lemma for_each_update_returns l w :
  exists t w',
    for_each l (fun e => emit (TakeEvent e) ;; update_mapping e) w
    = (t, Done tt w')
    /\ queue (dpy w') = queue (dpy w)
    /\ system_status (dpy w') = system_status (dpy w)
    /\ system_events (dpy w') = system_events (dpy w).
Proof.
  set (body := fun e => emit (TakeEvent e) ;; update_mapping e).
  revert w. induction l as [|e l IH]; intros w.
  - exists [], w. now repeat split.
  - destruct (update_mapping_returns e w) as (t1 & w1 & E1 & Q1 & S1 & V1).
    destruct (IH w1) as (t2 & w2 & E2 & Q2 & S2 & V2).
    exists (TakeEvent e :: t1 ++ t2)%list, w2. split.
    + assert (B : body e w = (TakeEvent e :: t1, Done tt w1)).
      { unfold body, bind, emit. now rewrite E1. }
      cbn [for_each]. unfold bind. now rewrite B, E2.
    + repeat split; congruence.
Qed.

Lemma drain_returns mask w :
  exists t w',
    while_XCheckMaskEvent mask update_mapping w = (t, Done tt w')
    /\ queue (dpy w')
       = filter (fun e => negb (selects mask e)) (queue (dpy w))
    /\ system_status (dpy w') = system_status (dpy w)
    /\ system_events (dpy w') = system_events (dpy w).
Proof.
  destruct (for_each_update_returns
              (filter (selects mask) (queue (dpy w)))
              (set_dpy (set_queue
                          (filter (fun e => negb (selects mask e))
                             (queue (dpy w))) (dpy w)) w))
    as (t & w' & E & Q & S & V).
  exists t, w'. split; [|now repeat split].
  unfold while_XCheckMaskEvent, bind at 1 2, get, put. now rewrite E.
Qed.

(** The wait ends when, and only when, a mapping notification comes. *)
Lemma wait_mapping_outcome q w :
  queue (dpy w) = q ->
  match snd (wait_mapping q w) with
  | Done _ _ => existsb is_mapping_notify q = true
  | Blocked => existsb is_mapping_notify q = false
  | Exit _ => False
  end.
Proof.
  revert w. induction q as [|e q IH]; intros w Hq; [reflexivity|].
  cbn [wait_mapping existsb].
  assert (E : XNextEvent w =
              ([TakeEvent e], Done e (set_dpy (set_queue q (dpy w)) w))).
  { unfold XNextEvent, bind at 1, get. now rewrite Hq. }
  rewrite (snd_bind_done _ _ _ _ _ _ E).
  unfold is_mapping_notify at 1 2 3.
  destruct (ev_type e =? X.MappingNotify).
  - destruct (update_mapping_returns e (set_dpy (set_queue q (dpy w)) w))
      as (t & w' & -> & _). reflexivity.
  - simpl. now apply IH.
Qed.

(** X13. A layout switch for a valid name ends in one of three ways, and
    which one is decided by the server alone: it exits with status 1 when
    the command could not be started; otherwise it returns when a mapping
    notification is among the events queued before the command or caused
    by it, and it waits for ever when there is none.  The drain loops do
    not take mapping notifications off the queue. *)
Theorem layout_switch_outcome (layout : list ascii) (w : world) :
  all_alpha layout = true -> snprintf_setxkbmap layout < 128 ->
  match snd (xkblayout layout w) with
  | Exit n => n = 1 /\ system_status (dpy w) = -1
  | Blocked =>
      system_status (dpy w) <> -1
      /\ existsb is_mapping_notify (awaited w) = false
  | Done _ _ =>
      system_status (dpy w) <> -1
      /\ existsb is_mapping_notify (awaited w) = true
  end.
Proof.
  intros Ha Hlen. unfold xkblayout. rewrite Ha. cbn [negb].
  destruct (Z.geb_spec (snprintf_setxkbmap layout) 128) as [|_]; [lia|].
  rewrite (snd_bind_done _ _ w [] (super_l (dpy w)) w eq_refl).
  rewrite (snd_bind_done _ _ w []
             (keycode_of (mapping (dpy w)) (super_l (dpy w))) w eq_refl).
  rewrite (snd_bind_done _ _ w [] (root (dpy w)) w eq_refl).
  rewrite (snd_bind_done _ _ w _ tt w eq_refl).
  rewrite (snd_bind_done _ _ w _ tt w eq_refl).
  destruct (drain_returns X.MappingNotify w) as (t1 & w1 & E1 & Q1 & S1 & V1).
  rewrite (snd_bind_done _ _ _ _ _ _ E1).
  set (s := (setxkbmap ++ cstring layout)%list).
  set (w2 := set_dpy (set_queue (queue (dpy w1) ++ system_events (dpy w1))
                        (set_server_mapping (system_mapping (dpy w1) s)
                           (dpy w1))) w1).
  rewrite (snd_bind_done (system s) _ w1 [System s] (system_status (dpy w1))
             w2 eq_refl).
  rewrite S1.
  destruct (Z.eqb_spec (system_status (dpy w)) (-1)) as [Hs|Hs].
  { unfold bind, err. simpl. now split. }
  rewrite (snd_bind_done _ _ w2 [] tt w2 eq_refl).
  rewrite (snd_bind_done _ _ w2 [] w2 w2 eq_refl).
  assert (Hq : existsb is_mapping_notify (queue (dpy w2))
               = existsb is_mapping_notify (awaited w)).
  { unfold awaited. change (queue (dpy w2))
      with (queue (dpy w1) ++ system_events (dpy w1))%list.
    rewrite Q1, V1, !existsb_app. f_equal.
    apply existsb_filter_kept. intros e He.
    now rewrite (mapping_notify_not_selected e He). }
  pose proof (wait_mapping_outcome (queue (dpy w2)) w2 eq_refl) as W.
  rewrite Hq in W. unfold bind at 1.
  destruct (wait_mapping (queue (dpy w2)) w2) as [t3 [[] w3| |]];
    simpl in W; try contradiction.
  - destruct (drain_returns X.MappingNotify w3) as (t4 & w4 & -> & _).
    simpl. now split.
  - simpl. now split.
Qed.

Lemma layout_switch_outcome_witness :
  all_alpha (chars "us") = true /\ snprintf_setxkbmap (chars "us") < 128
  /\ match snd (xkblayout (chars "us") sample_world) with
     | Exit n => n = 1 /\ system_status (dpy sample_world) = -1
     | Blocked =>
         system_status (dpy sample_world) <> -1
         /\ existsb is_mapping_notify (awaited sample_world) = false
     | Done _ _ =>
         system_status (dpy sample_world) <> -1
         /\ existsb is_mapping_notify (awaited sample_world) = true
     end.
Proof.
  assert (Ha : all_alpha (chars "us") = true) by reflexivity.
  assert (Hl : snprintf_setxkbmap (chars "us") < 128) by reflexivity.
  split; [exact Ha | split; [exact Hl |]].
  exact (layout_switch_outcome (chars "us") sample_world Ha Hl).
Defined.

(** ** Motions that follow each other *)

Lemma bounded_inside v bound : 0 <= v < bound -> bounded v bound = v.
Proof.
  intros H. unfold bounded.
  destruct (Z.ltb_spec v 0); [lia|].
  destruct (Z.geb_spec v bound); [lia | reflexivity].
Qed.

(** X14. Motion commands add up as long as the pointer stays inside the
    screen: a motion that ends inside, followed by a second one, leaves
    the pointer where the one motion with the sums of the deltas would,
    and the second motion does not ask the server for the pointer. *)
Theorem motions_add (a b c d : Z) (w : world) :
  xb_root (xb w) <> X.None \/ pointer_root (dpy w) <> X.None ->
  width (dpy w) <= C.INT_MAX -> height (dpy w) <= C.INT_MAX ->
  0 <= fst (position w) - a < width (dpy w) ->
  0 <= snd (position w) - b < height (dpy w) ->
  C.in_int (fst (position w) - (a + c)) ->
  C.in_int (snd (position w) - (b + d)) ->
  exists t w2,
    bind (xmotion a b) (fun _ => xmotion c d) w = (t, Done tt w2)
    /\ x_root (xb w2) = clamp (fst (position w) - (a + c)) (width (dpy w))
    /\ y_root (xb w2) = clamp (snd (position w) - (b + d)) (height (dpy w))
    /\ filter is_query t = seeding w.
Proof.
  intros Hseed HW HH Hx Hy Hxc Hyc.
  assert (Ix : C.in_int (fst (position w) - a))
    by (unfold C.in_int, C.INT_MIN, C.INT_MAX in *; lia).
  assert (Iy : C.in_int (snd (position w) - b))
    by (unfold C.in_int, C.INT_MIN, C.INT_MAX in *; lia).
  unfold bind. rewrite xmotion_run. unfold C.sub.
  rewrite (to_int_id _ Ix), (to_int_id _ Iy).
  rewrite (bounded_inside _ _ Hx), (bounded_inside _ _ Hy).
  set (w1 := set_xb _ w).
  assert (Hroot : (xb_root (xb w1) =? X.None) = false).
  { unfold w1. simpl. destruct (xb_root (xb w) =? X.None) eqn:E.
    - apply Z.eqb_neq. destruct Hseed as [Hs|Hs]; [|exact Hs].
      apply Z.eqb_eq in E. contradiction.
    - exact E. }
  assert (Hpos : position w1 = (fst (position w) - a, snd (position w) - b)).
  { unfold position at 1. now rewrite Hroot. }
  assert (Hseed1 : seeding w1 = []).
  { unfold seeding. now rewrite Hroot. }
  rewrite xmotion_run, Hpos, Hseed1. cbn [fst snd]. unfold C.sub.
  change (dpy w1) with (dpy w).
  replace (fst (position w) - a - c) with (fst (position w) - (a + c)) by lia.
  replace (snd (position w) - b - d) with (snd (position w) - (b + d)) by lia.
  rewrite (to_int_id _ Hxc), (to_int_id _ Hyc).
  assert (0 <= width (dpy w)) by lia. assert (0 <= height (dpy w)) by lia.
  rewrite !bounded_clamp by assumption.
  do 2 eexists. split; [reflexivity|]. split; [reflexivity|].
  split; [reflexivity|]. rewrite filter_app. unfold seeding.
  now destruct (xb_root (xb w) =? X.None).
Qed.

Lemma motions_add_witness :
  exists t w2,
    bind (xmotion 5 5) (fun _ => xmotion 5 5) sample_world = (t, Done tt w2)
    /\ x_root (xb w2) = 90 /\ y_root (xb w2) = 90
    /\ filter is_query t = [QueryPointer].
Proof.
  apply (motions_add 5 5 5 5 sample_world).
  - right. discriminate.
  - unfold C.INT_MAX. simpl. lia.
  - unfold C.INT_MAX. simpl. lia.
  - simpl. lia.
  - simpl. lia.
  - unfold C.in_int, C.INT_MIN, C.INT_MAX. simpl. lia.
  - unfold C.in_int, C.INT_MIN, C.INT_MAX. simpl. lia.
Defined.

(** At an edge they do not: what a motion loses against the edge is not
    given back by the motion that returns. *)
Lemma motions_at_the_edge :
  fst (main INJECT_METHOD_XTEST (chars "m 200 0" ++ LF :: chars "m -200 0" ++ [LF])
         false 0 sample_world)
  = [QueryPointer; FakeMotionEvent 0 0 100 0; Flush;
     FakeMotionEvent 0 200 100 0; Flush].
Proof. reflexivity. Qed.

(** ** The start of the program *)

Lemma options_all_s returned want :
  options returned want =
  if forallb (fun c => Ascii.eqb c "s") returned
  then Some (match returned with [] => want | _ => false end)
  else None.
Proof.
  revert want. induction returned as [|c r IH]; intros want; [reflexivity|].
  simpl. destruct (Ascii.eqb c "s"); [|reflexivity].
  rewrite IH. destruct (forallb _ r); [|reflexivity]. now destruct r.
Qed.

(** X15. The program gets as far as its loop exactly when [getenv]
    did not fail, the display opens, the XKB library and extension
    answer, every option is [-s], and XTEST is there or is not wanted.
    It runs with direct delivery exactly when it has arguments and
    [getopt] found [-s], and then it never needs XTEST; it runs with the
    replay method otherwise.  Every other start ends with status 1. *)
Theorem startup_outcome (e : environment) :
  let getenv_failed :=
    (match DISPLAY e with None => true | Some _ => false end)
    && negb (getenv_errno e =? 0) in
  let options_ok :=
    (argc e <? 2) || forallb (fun c => Ascii.eqb c "s") (getopt e) in
  let direct :=
    (argc e >=? 2) && match getopt e with [] => false | _ => true end in
  match startup e with
  | Ready method d =>
      getenv_failed = false
      /\ XOpenDisplay e = Some d
      /\ XkbLibraryVersion e = true /\ XkbQueryExtension e = true
      /\ options_ok = true
      /\ method = (if direct then INJECT_METHOD_SENDEVENT
                   else INJECT_METHOD_XTEST)
      /\ (direct = false -> XTestQueryExtension e = true)
  | Stopped status _ =>
      status = 1
      /\ (getenv_failed = true
          \/ XOpenDisplay e = None \/ XkbLibraryVersion e = false
          \/ XkbQueryExtension e = false \/ options_ok = false
          \/ (direct = false /\ XTestQueryExtension e = false))
  end.
Proof.
  cbv zeta. unfold startup.
  destruct ((match DISPLAY e with None => true | Some _ => false end)
            && negb (getenv_errno e =? 0)); [now split; [|left]|].
  destruct (XOpenDisplay e) as [d|];
    [|destruct (DISPLAY e); (split; [reflexivity | right; now left])].
  destruct (XkbLibraryVersion e); cbn [negb];
    [|split; [reflexivity | right; right; now left]].
  destruct (XkbQueryExtension e); cbn [negb];
    [|split; [reflexivity | right; right; right; now left]].
  rewrite options_all_s.
  assert (L : (argc e <? 2) = negb (argc e >=? 2)).
  { destruct (Z.ltb_spec (argc e) 2), (Z.geb_spec (argc e) 2);
      (reflexivity || lia). }
  rewrite L. destruct (argc e >=? 2); cbn [negb orb andb].
  - destruct (forallb (fun c => Ascii.eqb c "s") (getopt e));
      [|split; [reflexivity | do 4 right; now left]].
    destruct (getopt e) as [|c r].
    + destruct (XTestQueryExtension e); cbn [negb].
      * repeat split; auto.
      * split; [reflexivity | do 5 right; now split].
    + repeat split; auto. discriminate.
  - destruct (XTestQueryExtension e); cbn [negb].
    + repeat split; auto.
    + split; [reflexivity | do 5 right; now split].
Qed.

(** Started as [xin -s] on a server without XTEST, the program runs, and
    a key line is delivered to the focus window. *)
Lemma direct_delivery_without_xtest :
  startup sample_environment = Ready INJECT_METHOD_SENDEVENT sample_display
  /\ xin sample_environment (chars "k 97" ++ [LF]) false 0
     = inr ([GetInputFocus;
             SendEvent 7 0 1
               {| xkey_type := 2; xkey_window := 7; xkey_subwindow := 7;
                  xkey_time := 0; xkey_state := 0; xkey_keycode := 38 |};
             Flush],
            Done EXIT_SUCCESS sample_world).
Proof. split; reflexivity. Qed.
